(** * The Endorphin esbuild plugin: template and stylesheet cache

    A shallow embedding of [src/endorphin.js] and [src/utils/hash.js].

    Conventions of the embedding.
    - A JavaScript string is a Rocq [string]: a sequence of 8-bit
      characters.  For ASCII text this is both the sequence of UTF-16 code
      units the line scan indexes and the UTF-8 byte sequence that is
      hashed.
    - [undefined] is [None]; an optional property is an [option] field.
    - A JS [Map] that is only read and written by key is a [gmap]; a [Map]
      whose iteration order is observed is an association list.
    - [async] functions are run to completion one after another: a handler
      is a function from the plugin state to a result and a new state.
    - The template compiler, sass, [scopeCSS], [URLSearchParams] and
      [Number] are parameters ([Externals]); MD5, base64 and the POSIX
      [node:path] are written out.  The scan of the helper files in
      [setup] ([getSymbols]) only feeds [options.template], which goes to
      the compiler, and is left out. *)

From Stdlib Require Import ZArith List String Ascii Bool Lia DecimalString.
From stdpp Require Import base option list gmap strings.

Local Open Scope string_scope.
Local Open Scope Z_scope.
Local Open Scope nat_scope.

(** ** Line scan ([getLines]) *)

(** [interface Line { start: number; end: number }]; [end] is a keyword
    here, so the fields carry a prefix. *)
Record Line := mkLine { line_start : nat; line_end : nat }.

Definition CR : ascii := "013"%char.
Definition LF : ascii := "010"%char.

(** [text[i]]: [undefined] past the end. *)
Definition charAt (text : string) (i : nat) : option ascii := String.get i text.

Definition is_char (c : ascii) (o : option ascii) : bool :=
  match o with
  | Some c' => Ascii.eqb c' c
  | None => false
  end.

(** [===] on two values that may be [undefined]. *)
Definition option_eqb {A} (eqb : A -> A -> bool) (x y : option A) : bool :=
  match x, y with
  | Some a, Some b => eqb a b
  | None, None => true
  | _, _ => false
  end.

(** What remains of [getLines] once the [while] loop is left. *)
Definition getLines_finish (start end_ : nat) (result : list Line) : list Line :=
  if Nat.eqb start end_ then result else result ++ [mkLine start end_].

(** The [while (end < text.length)] loop, one iteration per unit of fuel;
    [None] when the fuel runs out before the loop is left. *)
Fixpoint getLines_loop (fuel : nat) (text : string) (start end_ : nat)
    (result : list Line) : option (list Line) :=
  if negb (end_ <? String.length text) then
    Some (getLines_finish start end_ result)
  else
    match fuel with
    | O => None
    | S fuel' =>
        let ch := charAt text end_ in
        let end1 := S end_ in
        if is_char CR ch || is_char LF ch then
          let end2 :=
            if is_char CR ch && is_char LF (charAt text end1)
            then S end1 else end1 in
          getLines_loop fuel' text end2 end2 (result ++ [mkLine start end2])
        else
          getLines_loop fuel' text start end1 result
    end.

Definition getLines (text : string) : list Line :=
  default [] (getLines_loop (String.length text) text 0 0 []).

(** [chain a l b]: the spans of [l] are not empty and run from [a] to [b]
    without a gap. *)
Fixpoint chain (a : nat) (l : list Line) (b : nat) : Prop :=
  match l with
  | [] => a = b
  | x :: l' => line_start x = a /\ line_start x < line_end x /\ chain (line_end x) l' b
  end.

(** ** Diagnostics ([createMessage]) *)

Record Location := mkLocation {
  loc_line : nat;
  loc_column : Z;
  loc_lineText : string;
  loc_file : string
}.

(** esbuild's [PartialMessage], with the two fields the plugin fills. *)
Record PartialMessage := mkMessage {
  msg_text : string;
  msg_location : Location
}.

(** [Array.prototype.findIndex]; [-1] is [None]. *)
Fixpoint findIndex_from {A} (p : A -> bool) (l : list A) (i : nat) : option nat :=
  match l with
  | [] => None
  | x :: l' => if p x then Some i else findIndex_from p l' (S i)
  end.

Definition findIndex {A} (p : A -> bool) (l : list A) : option nat :=
  findIndex_from p l 0.

(** [code.slice(start, end)] for [0 <= start <= end]. *)
Definition slice (code : string) (start end_ : nat) : string :=
  String.substring start (end_ - start) code.

(** The predicate handed to [findIndex]:
    [line => line.start >= pos && line.end < pos]. *)
Definition line_matches (pos : Z) (line : Line) : bool :=
  (pos <=? Z.of_nat (line_start line))%Z && (Z.of_nat (line_end line) <? pos)%Z.

Definition createMessage (message : string) (pos : Z) (code file : string)
    : option PartialMessage :=
  let lines := getLines code in
  match findIndex (line_matches pos) lines with
  | Some lineIx =>
      match lines !! lineIx with
      | Some line =>
          Some (mkMessage message
                  (mkLocation lineIx (pos - Z.of_nat (line_start line))
                     (slice code (line_start line) (line_end line)) file))
      | None => None
      end
  | None => None
  end.

(** ** Content fingerprint ([src/utils/hash.js]) *)

(** *** The platform's digest: [createHash('md5')] and base64

    [node:crypto] and [Buffer] are not code of the plugin; MD5 (RFC 1321)
    and base64 (RFC 4648) are written out so that [safeBase64Hash]
    computes.  A byte and a 32-bit word are a [Z] with the wrap-around
    explicit. *)
Module MD5.
Local Open Scope Z_scope.

Definition wrap32 (x : Z) : Z := x mod 2 ^ 32.
Definition add32 (x y : Z) : Z := wrap32 (x + y).
Definition not32 (x : Z) : Z := 2 ^ 32 - 1 - x.
Definition rotl32 (x : Z) (c : Z) : Z :=
  Z.lor (wrap32 (Z.shiftl x c)) (Z.shiftr x (32 - c)).

(** [K[i] = floor(2^32 * abs(sin(i + 1)))]. *)
Definition K : list Z :=
  [ 0xd76aa478; 0xe8c7b756; 0x242070db; 0xc1bdceee;
    0xf57c0faf; 0x4787c62a; 0xa8304613; 0xfd469501;
    0x698098d8; 0x8b44f7af; 0xffff5bb1; 0x895cd7be;
    0x6b901122; 0xfd987193; 0xa679438e; 0x49b40821;
    0xf61e2562; 0xc040b340; 0x265e5a51; 0xe9b6c7aa;
    0xd62f105d; 0x02441453; 0xd8a1e681; 0xe7d3fbc8;
    0x21e1cde6; 0xc33707d6; 0xf4d50d87; 0x455a14ed;
    0xa9e3e905; 0xfcefa3f8; 0x676f02d9; 0x8d2a4c8a;
    0xfffa3942; 0x8771f681; 0x6d9d6122; 0xfde5380c;
    0xa4beea44; 0x4bdecfa9; 0xf6bb4b60; 0xbebfbc70;
    0x289b7ec6; 0xeaa127fa; 0xd4ef3085; 0x04881d05;
    0xd9d4d039; 0xe6db99e5; 0x1fa27cf8; 0xc4ac5665;
    0xf4292244; 0x432aff97; 0xab9423a7; 0xfc93a039;
    0x655b59c3; 0x8f0ccc92; 0xffeff47d; 0x85845dd1;
    0x6fa87e4f; 0xfe2ce6e0; 0xa3014314; 0x4e0811a1;
    0xf7537e82; 0xbd3af235; 0x2ad7d2bb; 0xeb86d391 ].

(** Per-round shift amounts. *)
Definition shifts : list Z :=
  [ 7; 12; 17; 22; 7; 12; 17; 22; 7; 12; 17; 22; 7; 12; 17; 22;
    5; 9; 14; 20; 5; 9; 14; 20; 5; 9; 14; 20; 5; 9; 14; 20;
    4; 11; 16; 23; 4; 11; 16; 23; 4; 11; 16; 23; 4; 11; 16; 23;
    6; 10; 15; 21; 6; 10; 15; 21; 6; 10; 15; 21; 6; 10; 15; 21 ].

Definition state : Type := Z * Z * Z * Z.

Definition init : state := (0x67452301, 0xefcdab89, 0x98badcfe, 0x10325476).

(** One of the 64 operations on the working variables. *)
Definition round (M : list Z) (st : state) (i : nat) : state :=
  let '(A, B, C, D) := st in
  let zi := Z.of_nat i in
  let '(F, g) :=
    if (i <? 16)%nat then
      (Z.lor (Z.land B C) (Z.land (not32 B) D), zi)
    else if (i <? 32)%nat then
      (Z.lor (Z.land D B) (Z.land (not32 D) C), (5 * zi + 1) mod 16)
    else if (i <? 48)%nat then
      (Z.lxor (Z.lxor B C) D, (3 * zi + 5) mod 16)
    else
      (Z.lxor C (Z.lor B (not32 D)), (7 * zi) mod 16) in
  let F' := add32 (add32 (add32 F A) (nth i K 0)) (nth (Z.to_nat g) M 0) in
  (D, add32 B (rotl32 F' (nth i shifts 0)), B, C).

(** Little-endian decoding of a block's bytes into 32-bit words. *)
Fixpoint words (bytes : list Z) : list Z :=
  match bytes with
  | b0 :: b1 :: b2 :: b3 :: rest =>
      (b0 + 2 ^ 8 * b1 + 2 ^ 16 * b2 + 2 ^ 24 * b3) :: words rest
  | _ => []
  end.

Definition word_bytes (w : Z) : list Z :=
  [ w mod 256; (w / 2 ^ 8) mod 256; (w / 2 ^ 16) mod 256; (w / 2 ^ 24) mod 256 ].

Definition block (st : state) (bytes : list Z) : state :=
  let M := words bytes in
  let '(a0, b0, c0, d0) := st in
  let '(A, B, C, D) := fold_left (round M) (seq 0 64) st in
  (add32 a0 A, add32 b0 B, add32 c0 C, add32 d0 D).

(** The message followed by [0x80], zeros up to 56 modulo 64, and the
    bit length as a 64-bit little-endian number. *)
Definition pad (msg : list Z) : list Z :=
  let n := Z.of_nat (length msg) in
  let zeros := Z.to_nat ((55 - n) mod 64) in
  let bits := (8 * n) mod 2 ^ 64 in
  msg ++ [0x80] ++ repeat 0 zeros
      ++ word_bytes (bits mod 2 ^ 32) ++ word_bytes (bits / 2 ^ 32).

Fixpoint blocks (nblocks : nat) (st : state) (bytes : list Z) : state :=
  match nblocks with
  | O => st
  | S n => blocks n (block st (firstn 64 bytes)) (skipn 64 bytes)
  end.

Definition digest_bytes (msg : list Z) : list Z :=
  let padded := pad msg in
  let '(a, b, c, d) := blocks (length padded / 64)%nat init padded in
  word_bytes a ++ word_bytes b ++ word_bytes c ++ word_bytes d.

Definition bytes_of_string (s : string) : list Z :=
  map (fun c => Z.of_nat (nat_of_ascii c)) (list_ascii_of_string s).
End MD5.

Module Base64.
Local Open Scope Z_scope.

Definition alphabet : string :=
  "ABCDEFGHIJKLMNOPQRSTUVWXYZabcdefghijklmnopqrstuvwxyz0123456789+/".

Definition digit (n : Z) : ascii :=
  default "A"%char (String.get (Z.to_nat (n mod 64)) alphabet).

Fixpoint encode (bytes : list Z) : string :=
  match bytes with
  | [] => ""
  | [a] =>
      String (digit (a / 4)) (String (digit (a mod 4 * 16)) "==")
  | [a; b] =>
      String (digit (a / 4))
        (String (digit (a mod 4 * 16 + b / 16))
           (String (digit (b mod 16 * 4)) "="))
  | a :: b :: c :: rest =>
      String (digit (a / 4))
        (String (digit (a mod 4 * 16 + b / 16))
           (String (digit (b mod 16 * 4 + c / 64))
              (String (digit (c mod 64)) (encode rest))))
  end.
End Base64.

(** [createHash('md5'); md5.update(input); md5.digest('base64')]. *)
Definition md5_digest_base64 (input : string) : string :=
  Base64.encode (MD5.digest_bytes (MD5.bytes_of_string input)).

(** *** [hash.js] itself *)

Definition hash_length : nat := 10.

(** [const replacements = { '+': '-', '/': '_', '=': '' }]. *)
Definition replacements (x : ascii) : option string :=
  if Ascii.eqb x "+" then Some "-"
  else if Ascii.eqb x "/" then Some "_"
  else if Ascii.eqb x "=" then Some ""
  else None.

(** [base64.replace(replaceRE, x => replacements[x])] with
    [replaceRE = /[+/=]/g]: the characters that are keys of
    [replacements] are replaced, the others kept. *)
Fixpoint toSafe (base64 : string) : string :=
  match base64 with
  | EmptyString => ""
  | String x rest =>
      match replacements x with
      | Some r => r +:+ toSafe rest
      | None => String x (toSafe rest)
      end
  end.

(** [s.substr(0, n)]. *)
Definition substr0 (s : string) (n : nat) : string := String.substring 0 n s.

(** The body of [safeBase64Hash] below the memo lookup. *)
Definition computeHash (input : string) : string :=
  substr0 (toSafe (md5_digest_base64 input)) hash_length.

(** A JS string is truthy when it is not empty. *)
Definition truthy (s : string) : bool :=
  match s with EmptyString => false | _ => true end.

(** [safeBase64Hash], with the module-level table [hashes] passed in and
    out. *)
Definition safeBase64Hash (input : string) (hashes : gmap string string)
    : string * gmap string string :=
  match hashes !! input with
  | Some h =>
      if truthy h then (h, hashes)
      else let hash := computeHash input in (hash, <[input := hash]> hashes)
  | None =>
      let hash := computeHash input in (hash, <[input := hash]> hashes)
  end.

(** ** The platform's path module ([node:path]) *)

(** The four functions of [node:path] the plugin calls. *)
Record PathModule := mkPathModule {
  path_basename : string -> string -> string;
  path_extname : string -> string;
  path_dirname : string -> string;
  path_normalize : string -> string
}.

(** The POSIX flavour of [node:path], written after Node's [lib/path.js]:
    the backwards scans of [basename], [extname] and [dirname] are loops
    over the index, [normalize] works on the list of segments. *)
Module Posix.

Definition SLASH : ascii := "/"%char.
Definition DOT : ascii := "."%char.

(** [path.slice(start, end)] with [end = -1] standing for no slice. *)
Definition slice_to (path : string) (start : nat) (end_ : option nat) : string :=
  match end_ with
  | Some e => slice path start e
  | None => ""
  end.

(** *** [basename] *)

Record BaseState := mkBaseState {
  b_start : nat;
  b_end : option nat;
  b_matchedSlash : bool;
  b_extIdx : option nat;
  b_firstNonSlashEnd : option nat
}.

(** [for (let i = path.length - 1; i >= 0; --i)] of the branch with a
    suffix; [n] is [i + 1]. *)
Fixpoint basename_suffix_loop (path suffix : string) (n : nat) (st : BaseState)
    : BaseState :=
  match n with
  | O => st
  | S i =>
      let code := charAt path i in
      if is_char SLASH code then
        if negb (b_matchedSlash st) then
          mkBaseState (S i) (b_end st) (b_matchedSlash st) (b_extIdx st)
            (b_firstNonSlashEnd st)
        else basename_suffix_loop path suffix i st
      else
        let st1 :=
          match b_firstNonSlashEnd st with
          | None => mkBaseState (b_start st) (b_end st) false (b_extIdx st) (Some (S i))
          | Some _ => st
          end in
        let st2 :=
          match b_extIdx st1 with
          | Some e =>
              if option_eqb Ascii.eqb code (charAt suffix e) then
                match e with
                | O => mkBaseState (b_start st1) (Some i) (b_matchedSlash st1) None
                         (b_firstNonSlashEnd st1)
                | S e' => mkBaseState (b_start st1) (b_end st1) (b_matchedSlash st1)
                            (Some e') (b_firstNonSlashEnd st1)
                end
              else
                mkBaseState (b_start st1) (b_firstNonSlashEnd st1) (b_matchedSlash st1)
                  None (b_firstNonSlashEnd st1)
          | None => st1
          end in
        basename_suffix_loop path suffix i st2
  end.

(** The loop of the branch without a suffix. *)
Fixpoint basename_plain_loop (path : string) (n : nat) (st : BaseState) : BaseState :=
  match n with
  | O => st
  | S i =>
      if is_char SLASH (charAt path i) then
        if negb (b_matchedSlash st) then
          mkBaseState (S i) (b_end st) (b_matchedSlash st) (b_extIdx st)
            (b_firstNonSlashEnd st)
        else basename_plain_loop path i st
      else
        match b_end st with
        | None =>
            basename_plain_loop path i
              (mkBaseState (b_start st) (Some (S i)) false (b_extIdx st)
                 (b_firstNonSlashEnd st))
        | Some _ => basename_plain_loop path i st
        end
  end.

Definition basename (path suffix : string) : string :=
  let len := String.length path in
  let slen := String.length suffix in
  if (0 <? slen) && (slen <=? len) then
    if String.eqb suffix path then ""
    else
      let st := basename_suffix_loop path suffix len
                  (mkBaseState 0 None true (Some (slen - 1)) None) in
      let end_ :=
        if option_eqb Nat.eqb (Some (b_start st)) (b_end st)
        then b_firstNonSlashEnd st
        else match b_end st with
             | None => Some len
             | e => e
             end in
      slice_to path (b_start st) end_
  else
    let st := basename_plain_loop path len (mkBaseState 0 None true None None) in
    slice_to path (b_start st) (b_end st).

(** *** [extname] *)

Record ExtState := mkExtState {
  e_startDot : option nat;
  e_startPart : nat;
  e_end : option nat;
  e_matchedSlash : bool;
  e_preDotState : Z
}.

Fixpoint extname_loop (path : string) (n : nat) (st : ExtState) : ExtState :=
  match n with
  | O => st
  | S i =>
      let code := charAt path i in
      if is_char SLASH code then
        if negb (e_matchedSlash st) then
          mkExtState (e_startDot st) (S i) (e_end st) (e_matchedSlash st)
            (e_preDotState st)
        else extname_loop path i st
      else
        let st1 :=
          match e_end st with
          | None => mkExtState (e_startDot st) (e_startPart st) (Some (S i)) false
                      (e_preDotState st)
          | Some _ => st
          end in
        let st2 :=
          if is_char DOT code then
            match e_startDot st1 with
            | None => mkExtState (Some i) (e_startPart st1) (e_end st1)
                        (e_matchedSlash st1) (e_preDotState st1)
            | Some _ =>
                if negb (e_preDotState st1 =? 1)%Z
                then mkExtState (e_startDot st1) (e_startPart st1) (e_end st1)
                       (e_matchedSlash st1) 1%Z
                else st1
            end
          else
            match e_startDot st1 with
            | Some _ => mkExtState (e_startDot st1) (e_startPart st1) (e_end st1)
                          (e_matchedSlash st1) (-1)%Z
            | None => st1
            end in
        extname_loop path i st2
  end.

Definition extname (path : string) : string :=
  let st := extname_loop path (String.length path) (mkExtState None 0 None true 0%Z) in
  match e_startDot st, e_end st with
  | Some startDot, Some end_ =>
      if (e_preDotState st =? 0)%Z
         || ((e_preDotState st =? 1)%Z && (startDot =? end_ - 1)
             && (startDot =? e_startPart st + 1))
      then ""
      else slice path startDot end_
  | _, _ => ""
  end.

(** *** [dirname] *)

(** [for (let i = path.length - 1; i >= 1; --i)]: the index of the slash
    that ends the directory part, [None] for [-1]. *)
Fixpoint dirname_loop (path : string) (n : nat) (matchedSlash : bool) : option nat :=
  match n with
  | O => None
  | S O => None
  | S i =>
      if is_char SLASH (charAt path i) then
        if negb matchedSlash then Some i else dirname_loop path i matchedSlash
      else dirname_loop path i false
  end.

Definition dirname (path : string) : string :=
  if String.length path =? 0 then "."
  else
    let hasRoot := is_char SLASH (charAt path 0) in
    match dirname_loop path (String.length path) true with
    | None => if hasRoot then "/" else "."
    | Some end_ =>
        if hasRoot && (end_ =? 1) then "//" else slice path 0 end_
    end.

(** *** [normalize] *)

(** The pieces of [s] between occurrences of [sep]. *)
Fixpoint split_on (sep : ascii) (s : string) : list string :=
  match s with
  | EmptyString => [""]
  | String c rest =>
      if Ascii.eqb c sep then "" :: split_on sep rest
      else match split_on sep rest with
           | piece :: pieces => String c piece :: pieces
           | [] => [String c ""]
           end
  end.

Fixpoint join (sep : string) (pieces : list string) : string :=
  match pieces with
  | [] => ""
  | [p] => p
  | p :: rest => p +:+ sep +:+ join sep rest
  end.

(** [normalizeString]: the segments kept so far are held in reverse. *)
Fixpoint normalizeSegments (allowAboveRoot : bool) (segments kept : list string)
    : list string :=
  match segments with
  | [] => rev kept
  | seg :: rest =>
      if String.eqb seg "" || String.eqb seg "." then
        normalizeSegments allowAboveRoot rest kept
      else if String.eqb seg ".." then
        match kept with
        | top :: kept' =>
            if String.eqb top ".." then
              normalizeSegments allowAboveRoot rest
                (if allowAboveRoot then ".." :: kept else kept)
            else normalizeSegments allowAboveRoot rest kept'
        | [] =>
            normalizeSegments allowAboveRoot rest
              (if allowAboveRoot then [".."] else [])
        end
      else normalizeSegments allowAboveRoot rest (seg :: kept)
  end.

Definition normalize (path : string) : string :=
  let len := String.length path in
  if len =? 0 then "."
  else
    let isAbsolute := is_char SLASH (charAt path 0) in
    let trailingSeparator := is_char SLASH (charAt path (len - 1)) in
    let res := join "/" (normalizeSegments (negb isAbsolute) (split_on SLASH path) []) in
    if String.length res =? 0 then
      if isAbsolute then "/" else if trailingSeparator then "./" else "."
    else
      let res' := if trailingSeparator then res +:+ "/" else res in
      if isAbsolute then "/" +:+ res' else res'.

End Posix.

Definition posix : PathModule :=
  mkPathModule Posix.basename Posix.extname Posix.dirname Posix.normalize.

(** ** Data of the plugin ([src/ambient.d.ts]) *)

(** [type CacheKey = string | number]; every key the plugin makes comes
    from the template literal of [getCacheKey], so it is a string. *)
Abbreviation CacheKey := string (only parsing).

(** A source map, kept as its [JSON.stringify] text. *)
Abbreviation SourceMap := string (only parsing).

Record CacheEntry := mkCacheEntry {
  cacheKey : CacheKey;
  source : string;
  code : string;
  (** [deps?: Map<string, CacheKey>], in insertion order. *)
  deps : option (list (string * CacheKey));
  warnings : option (list PartialMessage);
  map_ : option SourceMap
}.

Record ComponentResource := mkResource {
  res_url : option string;
  res_content : option string;
  res_type : option string
}.

(** [interface TemplateCacheEntry extends CacheEntry]. *)
Record TemplateCacheEntry := mkTemplateEntry {
  entry :> CacheEntry;
  scripts : list ComponentResource;
  styles : list ComponentResource;
  entry_styleCache : gmap string CacheEntry
}.

Record ENDSourceNode := mkNode {
  node_mime : option string;
  node_content : option string;
  node_url : option string
}.

Inductive StyleType := scss | css.

Record ProcessStylesheetOptions := mkStyleOptions {
  so_scope : string;
  so_file : string;
  so_type : StyleType;
  so_sourceMap : bool;
  so_classScope : option string
}.

Record ProcessedStylesheet := mkProcessed {
  processed_deps : list string;
  processed_code : string
}.

(** The part of [options.template] that [compileTemplate] and
    [loadStylesheet] can see: the properties that the spread
    [...options.template] writes over the ones of [compileOpt], and
    [classScope].  [t_warn] says that a [warn] handler of the user is
    present (it then replaces the collector). *)
Record TemplateOptions := mkTemplateOptions {
  t_module : option string;
  t_cssScope : option string;
  t_component : option string;
  t_warn : bool;
  t_classScope : option string
}.

(** The options after the merge of [createPlugin]. *)
Record EndorphinPluginOptions := mkOptions {
  template : option TemplateOptions;
  componentName : option (string -> string)
}.

(** What the user passes: a property is absent ([None]) or present, and a
    present [componentName] may hold [undefined]. *)
Record UserOptions := mkUserOptions {
  user_template : option TemplateOptions;
  user_componentName : option (option (string -> string))
}.

(** The object handed to [parse] and [generate], without its [warn]
    callback: the calls of [warn] are returned by the collaborator. *)
Record CompileOptions := mkCompileOptions {
  co_module : string;
  co_cssScope : string;
  co_component : string;
  co_classScope : option string
}.

(** A call [warn(message, pos)]; [pos] is absent when the caller gave none. *)
Record WarnCall := mkWarn {
  warn_message : string;
  warn_pos : option Z
}.

(** [parsed]: the two resource lists of [parsed.ast] and the rest of it. *)
Record ParsedTemplate (Ast : Type) := mkParsed {
  ast_stylesheets : list ENDSourceNode;
  ast_scripts : list ENDSourceNode;
  ast_body : Ast
}.
Arguments mkParsed {Ast}.
Arguments ast_stylesheets {Ast}.
Arguments ast_scripts {Ast}.
Arguments ast_body {Ast}.

Record GenerateResult := mkGenerated {
  gen_code : string;
  gen_map : option SourceMap
}.

Record SassResult := mkSass {
  sass_css : string;
  sass_sourceMap : option SourceMap;
  (** [url.pathname] of each of [compiled.loadedUrls]. *)
  sass_loadedUrls : list string
}.

(** [scopeCSS] returns a string or [{ code, map }]. *)
Inductive Transformed :=
| PlainCode (code : string)
| CodeWithMap (code : string) (map : option SourceMap).

(** A JS number used as an array index: an integer, or anything else
    ([NaN], a fraction, an infinity). *)
Inductive JSNumber :=
| JSInt (z : Z)
| JSOther.

(** [fs.Stats]: the two numbers as the template literal prints them. *)
Record Stats := mkStats {
  ino : string;
  mtimeMs : string
}.

(** The file system and the working directory at the time of a request. *)
Record World := mkWorld {
  fs_stat : string -> option Stats;
  fs_readFile : string -> option string;
  cwd : string
}.

(** esbuild's [OnLoadArgs]. *)
Record OnLoadArgs := mkArgs {
  args_path : string;
  args_suffix : string
}.

Inductive Loader := js | ts | css_loader.

(** esbuild's [OnLoadResult]. *)
Record OnLoadResult := mkOnLoad {
  contents : string;
  loader : Loader;
  out_warnings : option (list PartialMessage);
  watchFiles : option (list string)
}.

(** ** Effects *)

(** What a handler does to the outside, in order. *)
Inductive Event :=
| EvStat (filePath : string)
| EvReadFile (filePath : string)
| EvParse (filePath : string)
| EvGenerate (filePath : string)
| EvSass (file : string)
| EvScopeCSS (file : string)
| EvWarn (message : string).

(** The three maps of [createPlugin], the table [hashes] of [hash.js],
    and the events so far. *)
Record PluginState := mkState {
  templateCache : gmap string TemplateCacheEntry;
  styleCache : gmap string CacheEntry;
  fileKeyCache : gmap string string;
  hashes : gmap string string;
  trace : list Event
}.

Definition initialState : PluginState := mkState ∅ ∅ ∅ ∅ [].

Inductive Result (A : Type) :=
| Ok (a : A)
| Throw (error : string).
Arguments Ok {A}.
Arguments Throw {A}.

(** A computation that may throw and that reads and writes the state; what
    was written before a throw stays written. *)
Definition M (A : Type) : Type := PluginState -> Result A * PluginState.

Definition ret {A} (a : A) : M A := fun s => (Ok a, s).

Definition throw {A} (error : string) : M A := fun s => (Throw error, s).

Definition bind {A B} (m : M A) (k : A -> M B) : M B :=
  fun s =>
    match m s with
    | (Ok a, s') => k a s'
    | (Throw e, s') => (Throw e, s')
    end.

Notation "'let*' x ':=' m 'in' k" := (bind m (fun x => k))
  (at level 10, x pattern, m at level 100, k at level 200).
Notation "m ';;;' k" := (bind m (fun _ => k))
  (at level 100, k at level 200, right associativity).

Definition lift {A} (r : Result A) : M A := fun s => (r, s).

Definition emit (e : Event) : M unit :=
  fun s => (Ok tt, mkState (templateCache s) (styleCache s) (fileKeyCache s)
                     (hashes s) (trace s ++ [e])).

Definition set_templateCache (c : gmap string TemplateCacheEntry) : M unit :=
  fun s => (Ok tt, mkState c (styleCache s) (fileKeyCache s) (hashes s) (trace s)).

Definition set_styleCache (c : gmap string CacheEntry) : M unit :=
  fun s => (Ok tt, mkState (templateCache s) c (fileKeyCache s) (hashes s) (trace s)).

Definition set_fileKeyCache (c : gmap string string) : M unit :=
  fun s => (Ok tt, mkState (templateCache s) (styleCache s) c (hashes s) (trace s)).

(** [safeBase64Hash] run on the table of the state. *)
Definition hashM (input : string) : M string :=
  fun s =>
    let '(h, table) := safeBase64Hash input (hashes s) in
    (Ok h, mkState (templateCache s) (styleCache s) (fileKeyCache s) table (trace s)).

(** [await fs.stat(filePath)]. *)
Definition stat (w : World) (filePath : string) : M Stats :=
  emit (EvStat filePath);;;
  match fs_stat w filePath with
  | Some stats => ret stats
  | None => throw ("ENOENT: no such file or directory, stat " +:+ filePath)
  end.

(** [await fs.readFile(filePath, 'utf8')]. *)
Definition readFile (w : World) (filePath : string) : M string :=
  emit (EvReadFile filePath);;;
  match fs_readFile w filePath with
  | Some text => ret text
  | None => throw ("ENOENT: no such file or directory, open " +:+ filePath)
  end.

(** ** The collaborators *)

(** The template compiler, the stylesheet tools and the two platform
    functions that read a query: code outside the plugin. *)
Class Externals := mkExternals {
  Ast : Type;
  (** [parse(source, filePath, compileOpt)]: the parsed template and the
      calls of [compileOpt.warn] it made. *)
  parse : string -> string -> CompileOptions
          -> Result (ParsedTemplate Ast * list WarnCall);
  (** [generate(parsed, compileOpt)], with its calls of [warn]. *)
  generate : ParsedTemplate Ast -> CompileOptions
             -> Result (GenerateResult * list WarnCall);
  (** [sass.compileStringAsync(code, { url, sourceMap })], by the file of
      the URL. *)
  sass_compileStringAsync : string -> string -> bool -> Result SassResult;
  (** [scopeCSS(code, scope, { filename, map, classScope })]. *)
  scopeCSS : string -> string -> string -> option SourceMap -> option string
             -> Result Transformed;
  (** [new URLSearchParams(text)]: the pairs in order. *)
  URLSearchParams : string -> list (string * string);
  (** [Number(text)]. *)
  Number : string -> JSNumber;
  path : PathModule
}.

(** ** Module-level helpers of [endorphin.js] *)

Definition newline : string := String LF "".

(** The double quote of the generated import and export statements. *)
Definition dquote : string := String "034"%char "".

(** [`${i}`] for an array index. *)
Definition string_of_index (i : nat) : string :=
  DecimalString.NilZero.string_of_uint (Nat.to_uint i).

(** [`${x}`] for a string that may be [undefined]. *)
Definition interpolate (x : option string) : string := default "undefined" x.

(** Truthiness of a string that may be [undefined]. *)
Definition has_content (x : option string) : bool :=
  match x with
  | Some text => truthy text
  | None => false
  end.

(** [text.startsWith(prefix)]. *)
Definition startsWith (text prefix : string) : bool := String.prefix prefix text.

(** [text.slice(start)]. *)
Definition slice_from (text : string) (start : nat) : string :=
  String.substring start (String.length text - start) text.

Definition stripRoot (normalizedFilename normalizedRoot : string) : string :=
  if startsWith normalizedFilename (normalizedRoot +:+ "/")
  then slice_from normalizedFilename (String.length normalizedRoot)
  else normalizedFilename.

(** [Buffer.from(JSON.stringify(sm)).toString('base64')] in a data URL. *)
Definition sourceMapToDataURL (sm : SourceMap) : string :=
  "data:application/json;charset=utf-8;base64,"
    +:+ Base64.encode (MD5.bytes_of_string sm).

Definition getComponentResource (node : ENDSourceNode) : ComponentResource :=
  mkResource (node_url node) (node_content node) (node_mime node).

Definition getAbsoluteUrl (args : OnLoadArgs) : string :=
  args_path args +:+ (if truthy (args_suffix args) then args_suffix args else "").

(** [Map.prototype.set] on a map kept in insertion order: a key that is
    present keeps its place. *)
Fixpoint map_set (k : string) (v : CacheKey) (m : list (string * CacheKey))
    : list (string * CacheKey) :=
  match m with
  | [] => [(k, v)]
  | (k', v') :: rest =>
      if String.eqb k' k then (k, v) :: rest else (k', v') :: map_set k v rest
  end.

(** [query.get(name)]: the first value, [null] when there is none. *)
Fixpoint query_get (name : string) (query : list (string * string)) : option string :=
  match query with
  | [] => None
  | (k, v) :: rest => if String.eqb k name then Some v else query_get name rest
  end.

Definition query_has (name : string) (query : list (string * string)) : bool :=
  match query_get name query with
  | Some _ => true
  | None => false
  end.

(** [array[i]] for a number [i]. *)
Definition at_index {A} (l : list A) (i : JSNumber) : option A :=
  match i with
  | JSInt z => if (0 <=? z)%Z then l !! Z.to_nat z else None
  | JSOther => None
  end.

Definition toCSSOnLoad (cacheEntry : CacheEntry) : OnLoadResult :=
  let watchFiles :=
    match deps cacheEntry with
    | Some d => Some (map fst d)
    | None => None
    end in
  mkOnLoad (code cacheEntry) css_loader None watchFiles.

(** The callback [warn] of [compileOpt] run on the calls that were made:
    [(message, pos = -1) => { const warning = createMessage(...); if
    (warning) warnings.push(warning) }]. *)
Definition collectWarnings (calls : list WarnCall) (source filePath : string)
    : list PartialMessage :=
  omap (fun c => createMessage (warn_message c) (default (-1)%Z (warn_pos c))
                   source filePath) calls.

(** [createScopeSuffix]: ['e' + safeBase64Hash(filePath)]. *)
Definition createScopeSuffix (filePath : string) : M string :=
  let* h := hashM filePath in ret ("e" +:+ h).

Section Plugin.
Context `{ext : Externals}.

(** [defaultOptions.componentName]. *)
Definition defaultOptions_componentName (id : string) : string :=
  let fileName := path_basename path id (path_extname path id) in
  if String.eqb fileName "index" then path_dirname path id else fileName.

(** [defaultOptions.css.scope]. *)
Definition defaultOptions_css_scope (filePath : string) : M string :=
  let* h := hashM filePath in ret ("e" +:+ h).

(** The merge at the head of [createPlugin]:
    [{ ...defaultOptions, ...options, css: ... }]. *)
Definition createPlugin_options (options : UserOptions) : EndorphinPluginOptions :=
  mkOptions (user_template options)
    (match user_componentName options with
     | Some given => given
     | None => Some defaultOptions_componentName
     end).

Definition normalize (filename normalizedRoot : string) : string :=
  stripRoot (path_normalize path filename) normalizedRoot.

(** [url.split('?', 2)] and the query of the second piece. *)
Definition splitUrl (url : string) : string * list (string * string) :=
  match Posix.split_on "?" url with
  | file :: suffix :: _ =>
      (file, URLSearchParams (if truthy suffix then "?" +:+ suffix else ""))
  | [file] => (file, URLSearchParams "")
  | [] => ("", URLSearchParams "")
  end.

Definition processStylesheet (source : string) (options : ProcessStylesheetOptions)
    : M ProcessedStylesheet :=
  let* (code1, map1, deps1) :=
    match so_type options with
    | scss =>
        emit (EvSass (so_file options));;;
        let* compiled :=
          lift (sass_compileStringAsync source (so_file options)
                  (so_sourceMap options)) in
        ret (sass_css compiled, sass_sourceMap compiled, sass_loadedUrls compiled)
    | css => ret (source, None, [])
    end in
  emit (EvScopeCSS (so_file options));;;
  let* transformed :=
    lift (scopeCSS code1 (so_scope options) (so_file options) map1
            (so_classScope options)) in
  let '(code2, map2) :=
    match transformed with
    | PlainCode c => (c, map1)
    | CodeWithMap c m => (c, m)
    end in
  let code3 :=
    match map2 with
    | Some m =>
        code2 +:+ newline +:+ "/*# sourceMappingURL=" +:+ sourceMapToDataURL m +:+ " */"
    | None => code2
    end in
  ret (mkProcessed deps1 code3).

(** The object [compileOpt] of [compileTemplate]: the four properties
    the plugin sets, then the spread of [options.template]. *)
Definition makeCompileOptions (normalizedFilename : string)
    (options : EndorphinPluginOptions) : M CompileOptions :=
  let* cssScope := createScopeSuffix normalizedFilename in
  let component :=
    match componentName options with
    | Some f => f normalizedFilename
    | None => ""
    end in
  let t := template options in
  ret (mkCompileOptions
         (default "endorphin" (t ≫= t_module))
         (default cssScope (t ≫= t_cssScope))
         (default component (t ≫= t_component))
         (t ≫= t_classScope)).

(** Whether the collector of [compileTemplate] is the [warn] in use. *)
Definition collects (options : EndorphinPluginOptions) : bool :=
  match template options with
  | Some t => negb (t_warn t)
  | None => true
  end.

(** The header lines for the inline scripts:
    [scripts.forEach((res, i) => { if (res.content) ... })]. *)
Definition scriptsHeader (filePath : string) (scripts : list ComponentResource)
    : string :=
  String.concat ""
    (imap (fun i res =>
             if has_content (res_content res)
             then "export * from " +:+ dquote +:+ filePath
                    +:+ "?type=componentScript&i=" +:+ string_of_index i
                    +:+ dquote +:+ ";" +:+ newline
             else "") scripts).

(** [parsed.ast.scripts[i].content = undefined] for the inline scripts. *)
Definition clearInlineScripts (nodes : list ENDSourceNode) : list ENDSourceNode :=
  map (fun node =>
         if has_content (node_content node)
         then mkNode (node_mime node) None (node_url node)
         else node) nodes.

(** The header lines for the stylesheets. *)
Definition stylesHeader (cssScope : string) (styles : list ComponentResource)
    : string :=
  String.concat ""
    (imap (fun i res =>
             let suffix :=
               if has_content (res_content res)
               then "&i=" +:+ string_of_index i else "" in
             "import " +:+ dquote +:+ interpolate (res_url res)
               +:+ "?type=componentStylesheet&scope=" +:+ cssScope +:+ suffix
               +:+ dquote +:+ ";" +:+ newline) styles).

Definition compileTemplate (w : World) (filePath : string) (cacheKey : CacheKey)
    (options : EndorphinPluginOptions) : M TemplateCacheEntry :=
  let root := cwd w in
  let* source := readFile w filePath in
  let normalizedFilename := normalize filePath root in
  let* compileOpt := makeCompileOptions normalizedFilename options in
  emit (EvParse filePath);;;
  let* (parsed, warned1) := lift (parse source filePath compileOpt) in
  let styles := map getComponentResource (ast_stylesheets parsed) in
  let scripts := map getComponentResource (ast_scripts parsed) in
  let header :=
    scriptsHeader filePath scripts +:+ stylesHeader (co_cssScope compileOpt) styles in
  let parsed' :=
    mkParsed (ast_stylesheets parsed) (clearInlineScripts (ast_scripts parsed))
      (ast_body parsed) in
  emit (EvGenerate filePath);;;
  let* (result, warned2) := lift (generate parsed' compileOpt) in
  let warnings :=
    if collects options
    then collectWarnings (warned1 ++ warned2) source filePath else [] in
  ret (mkTemplateEntry
         (mkCacheEntry cacheKey source (header +:+ gen_code result) None
            (Some warnings) (gen_map result))
         scripts styles ∅).

(** *** The closure of [createPlugin] *)

(** What the handlers close over besides the three maps: the merged
    options and [!!build.initialOptions.sourcemap]. *)
Record Build := mkBuild {
  build_options : EndorphinPluginOptions;
  build_sourcemap : bool
}.

Definition getCacheKey (w : World) (filePath : string) : M CacheKey :=
  fun s =>
    match fileKeyCache s !! filePath with
    | Some value => ret value s
    | None =>
        (let* stats := stat w filePath in
         ret (ino stats +:+ ":" +:+ mtimeMs stats)) s
    end.

(** The [for (const [k, v] of entry.deps)] loop of [isValidEntry]. *)
Fixpoint isValidEntry_deps (w : World) (entries : list (string * CacheKey))
    : M bool :=
  match entries with
  | [] => ret true
  | (k, v) :: rest =>
      let* current := getCacheKey w k in
      if negb (String.eqb v current) then ret false
      else isValidEntry_deps w rest
  end.

Definition isValidEntry (w : World) (entry : CacheEntry) (cacheKey' : CacheKey)
    : M bool :=
  if negb (String.eqb (cacheKey entry) cacheKey') then ret false
  else
    match deps entry with
    | Some entries => isValidEntry_deps w entries
    | None => ret true
    end.

(** [for (const d of processed.deps) deps.set(d, await getCacheKey(d))]. *)
Fixpoint recordDeps (w : World) (paths : list string)
    (recorded : list (string * CacheKey)) : M (list (string * CacheKey)) :=
  match paths with
  | [] => ret recorded
  | d :: rest =>
      let* key := getCacheKey w d in
      recordDeps w rest (map_set d key recorded)
  end.

(** The body of [if (!cacheEntry || !await isValidEntry(cacheEntry,
    cacheKey))] in [loadStylesheet]: process the source, record the
    dependencies, store the new entry. *)
Definition loadStylesheet_miss (b : Build) (w : World) (url file : string)
    (query : list (string * string)) (source' : option string) (type : StyleType)
    (cache : gmap string CacheEntry) (cacheKey' : CacheKey)
    : M (option CacheEntry * gmap string CacheEntry) :=
  let* source'' :=
    match source' with
    | None => readFile w file
    | Some text => ret text
    end in
  let* processed :=
    processStylesheet source''
      (mkStyleOptions
         (match query_get "scope" query with
          | Some scope => if truthy scope then scope else ""
          | None => ""
          end)
         file type (build_sourcemap b)
         (template (build_options b) ≫= t_classScope)) in
  let* deps' := recordDeps w (processed_deps processed) [] in
  let e := mkCacheEntry cacheKey' source'' (processed_code processed)
             (Some deps') None None in
  ret (Some e, <[url := e]> cache).

(** [loadStylesheet]: the map [cache] comes in as a value and goes out
    as a value; the caller puts it back where it came from. *)
Definition loadStylesheet (b : Build) (w : World) (url : string)
    (source' : option string) (type : StyleType) (cache : gmap string CacheEntry)
    : M (option CacheEntry * gmap string CacheEntry) :=
  let cacheEntry := cache !! url in
  let '(file, query) := splitUrl url in
  let* cacheKey' := getCacheKey w file in
  let* valid :=
    match cacheEntry with
    | Some e => isValidEntry w e cacheKey'
    | None => ret false
    end in
  if valid then ret (cacheEntry, cache)
  else loadStylesheet_miss b w url file query source' type cache cacheKey'.

(** [build.onStart(() => { fileKeyCache.clear() })]. *)
Definition onStart : M unit := set_fileKeyCache ∅.

(** [build.onLoad({ filter: /\.html$/ }, ...)]; [None] is a return
    without a value. *)
Definition onLoad_html (b : Build) (w : World) (args : OnLoadArgs)
    : M (option OnLoadResult) :=
  fun s =>
    let compiledTemplate := templateCache s !! args_path args in
    if truthy (args_suffix args) then
      match compiledTemplate with
      | None =>
          throw ("Unable to find parsed tamplate for " +:+ args_path args) s
      | Some compiled =>
          let query := URLSearchParams (args_suffix args) in
          let type := query_get "type" query in
          let i :=
            if query_has "i" query
            then Number (default "" (query_get "i" query))
            else JSInt (-1) in
          if option_eqb String.eqb type (Some "componentStylesheet") then
            let style := at_index (styles compiled) i in
            if has_content (style ≫= res_content) then
              let url := getAbsoluteUrl args in
              (let* (cacheEntry, cache') :=
                 loadStylesheet b w url (style ≫= res_content)
                   (if option_eqb String.eqb (style ≫= res_type) (Some "scss")
                    then scss else css)
                   (entry_styleCache compiled) in
               fun s' =>
                 (set_templateCache
                    (<[args_path args :=
                         mkTemplateEntry (entry compiled) (scripts compiled)
                           (styles compiled) cache']> (templateCache s'));;;
                  match cacheEntry with
                  | Some e => ret (Some (toCSSOnLoad e))
                  | None => emit (EvWarn "No inline stylesheet");;; ret None
                  end) s') s
            else ret None s
          else if option_eqb String.eqb type (Some "componentScript") then
            let script := at_index (scripts compiled) i in
            if has_content (script ≫= res_content) then
              ret (Some (mkOnLoad (default "" (script ≫= res_content))
                           (if option_eqb String.eqb (script ≫= res_type) (Some "ts")
                               || option_eqb String.eqb (script ≫= res_type)
                                    (Some "typescript")
                            then ts else js)
                           None None)) s
            else (emit (EvWarn "No inline script");;; ret None) s
          else ret None s
      end
    else
      (let* cacheKey' := getCacheKey w (args_path args) in
       let* valid :=
         match compiledTemplate with
         | Some compiled => isValidEntry w compiled cacheKey'
         | None => ret false
         end in
       let* compiled :=
         match compiledTemplate, valid with
         | Some compiled, true => ret compiled
         | _, _ =>
             let* fresh :=
               compileTemplate w (args_path args) cacheKey' (build_options b) in
             fun s' =>
               (set_templateCache (<[args_path args := fresh]> (templateCache s'));;;
                ret fresh) s'
         end in
       ret (Some (mkOnLoad (code compiled) js (warnings compiled) None))) s.

(** [build.onLoad({ filter: /\.s?css(\?.+)?$/ }, ...)]. *)
Definition onLoad_css (b : Build) (w : World) (args : OnLoadArgs)
    : M (option OnLoadResult) :=
  let url := getAbsoluteUrl args in
  let '(file, _) := splitUrl url in
  fun s =>
    (let* (cacheEntry, cache') :=
       loadStylesheet b w url None
         (if String.eqb (path_extname path file) ".scss" then scss else css)
         (styleCache s) in
     set_styleCache cache';;;
     ret (toCSSOnLoad <$> cacheEntry)) s.

End Plugin.

(** * Vocabulary of the statements *)

(** The characters a token may hold: the base64 alphabet with [+] and [/]
    replaced by [-] and [_]. *)
Definition safe_alphabet : string :=
  "ABCDEFGHIJKLMNOPQRSTUVWXYZabcdefghijklmnopqrstuvwxyz0123456789-_".

Definition is_safe_char (c : ascii) : bool :=
  existsb (Ascii.eqb c) (list_ascii_of_string safe_alphabet).

(** The tables [hashes] a process can hold: the empty one of module load,
    and the ones left by a call. *)
Inductive reachable_hashes : gmap string string -> Prop :=
| reachable_empty : reachable_hashes ∅
| reachable_call (input : string) (table : gmap string string) :
    reachable_hashes table -> reachable_hashes (snd (safeBase64Hash input table)).

(** Every entry of the table is the hash of its key. *)
Definition memo_ok (table : gmap string string) : Prop :=
  forall x v, table !! x = Some v -> v = computeHash x.

(** The identity [getCacheKey] yields for a path: what the memo holds for
    it or, when it holds nothing, the token made from [fs.stat]. *)
Definition identity (w : World) (memo : gmap string string) (filePath : string)
    : Result CacheKey :=
  match memo !! filePath with
  | Some value => Ok value
  | None =>
      match fs_stat w filePath with
      | Some stats => Ok (ino stats +:+ ":" +:+ mtimeMs stats)
      | None => Throw ("ENOENT: no such file or directory, stat " +:+ filePath)
      end
  end.

(** The dependencies recorded on an entry, none when [deps] is absent. *)
Definition recorded (e : CacheEntry) : list (string * CacheKey) :=
  default [] (deps e).

(** The three maps and the hash table are the same in both states. *)
Definition same_caches (s s' : PluginState) : Prop :=
  templateCache s' = templateCache s
  /\ styleCache s' = styleCache s
  /\ fileKeyCache s' = fileKeyCache s
  /\ hashes s' = hashes s.

Definition is_stat (e : Event) : Prop :=
  match e with
  | EvStat _ => True
  | _ => False
  end.

(** From [s] to [s'] nothing happened but calls of [fs.stat]. *)
Definition only_stats (s s' : PluginState) : Prop :=
  same_caches s s'
  /\ exists evs : list Event, trace s' = (trace s ++ evs)%list /\ Forall is_stat evs.

(** Between two requests the file and the dependencies recorded on the
    entry (if there is one) have the metadata they had. *)
Definition unchanged (w1 w2 : World) (file : string) (backing : option CacheEntry)
    : Prop :=
  fs_stat w2 file = fs_stat w1 file
  /\ forall e d k, backing = Some e -> (d, k) ∈ recorded e ->
       fs_stat w2 d = fs_stat w1 d.

Section Requests.
Context `{ext : Externals}.

(** The file whose identity a request for a template checks. *)
Definition html_request_file (args : OnLoadArgs) : string :=
  if truthy (args_suffix args)
  then fst (splitUrl (getAbsoluteUrl args))
  else args_path args.

(** The cache entry behind a request for a template: the template's own
    entry, or the entry of its sub-cache for a sub-resource. *)
Definition html_backing_entry (s : PluginState) (args : OnLoadArgs)
    : option CacheEntry :=
  if truthy (args_suffix args)
  then templateCache s !! args_path args
         ≫= fun compiled => entry_styleCache compiled !! getAbsoluteUrl args
  else entry <$> templateCache s !! args_path args.

(** The file and the cache entry behind a request for a stylesheet. *)
Definition css_request_file (args : OnLoadArgs) : string :=
  fst (splitUrl (getAbsoluteUrl args)).

Definition css_backing_entry (s : PluginState) (args : OnLoadArgs)
    : option CacheEntry :=
  styleCache s !! getAbsoluteUrl args.

(** The index [i] of a sub-resource request. *)
Definition request_index (args : OnLoadArgs) : JSNumber :=
  let query := URLSearchParams (args_suffix args) in
  if query_has "i" query
  then Number (default "" (query_get "i" query))
  else JSInt (-1).

(** The parameter [type] of a sub-resource request. *)
Definition request_type (args : OnLoadArgs) : option string :=
  query_get "type" (URLSearchParams (args_suffix args)).

(** The states a plugin instance goes through: the one of
    [createPlugin], then one "build starting" event or one request after
    another. *)
Inductive reachable : PluginState -> Prop :=
| reachable_initial : reachable initialState
| reachable_onStart (s : PluginState) :
    reachable s -> reachable (snd (onStart s))
| reachable_html (b : Build) (w : World) (args : OnLoadArgs) (s : PluginState) :
    reachable s -> reachable (snd (onLoad_html b w args s))
| reachable_css (b : Build) (w : World) (args : OnLoadArgs) (s : PluginState) :
    reachable s -> reachable (snd (onLoad_css b w args s)).

End Requests.

(** [m] keeps the property [P] of the state, whatever it returns. *)
Definition preserves {A} (P : PluginState -> Prop) (m : M A) : Prop :=
  forall s, P s -> P (snd (m s)).

(** The identity memo is empty and the hash table holds only hashes. *)
Definition memos_ok (s : PluginState) : Prop :=
  fileKeyCache s = ∅ /\ memo_ok (hashes s).

(** * A concrete setting

    Collaborators, a file system and requests on which the statements
    below are run. *)
Module Demo.

(** The text before and after the first [sep]. *)
Fixpoint cut (sep : ascii) (s : string) : string * option string :=
  match s with
  | EmptyString => ("", None)
  | String c rest =>
      if Ascii.eqb c sep then ("", Some rest)
      else let '(before, after) := cut sep rest in (String c before, after)
  end.

(** Queries without escapes: [?type=componentScript&i=0]. *)
Definition searchParams (text : string) : list (string * string) :=
  let body :=
    match text with
    | String c rest => if Ascii.eqb c "?" then rest else text
    | EmptyString => text
    end in
  omap (fun piece =>
          if truthy piece
          then let '(k, v) := cut "=" piece in Some (k, default "" v)
          else None)
       (Posix.split_on "&" body).

Definition digit_value (c : ascii) : option Z :=
  let n := Z.of_nat (nat_of_ascii c) in
  if (48 <=? n)%Z && (n <=? 57)%Z then Some (n - 48)%Z else None.

Fixpoint decimal (acc : Z) (s : string) : JSNumber :=
  match s with
  | EmptyString => JSInt acc
  | String c rest =>
      match digit_value c with
      | Some d => decimal (10 * acc + d)%Z rest
      | None => JSOther
      end
  end.

Definition templatePath : string := "/proj/src/button/index.html".
Definition partialPath : string := "/proj/src/_vars.scss".

(** A template with one inline stylesheet and one inline script. *)
Definition parsedTemplate : ParsedTemplate unit :=
  mkParsed
    [mkNode (Some "scss") (Some ".a { color: red }") (Some templatePath)]
    [mkNode (Some "ts") (Some "export const a: number = 1;") (Some templatePath)]
    tt.

#[local] Instance externals : Externals :=
  mkExternals unit
    (fun _ _ _ => Ok (parsedTemplate, [mkWarn "unused variable" (Some 1%Z)]))
    (fun _ _ => Ok (mkGenerated "export default {};" None, []))
    (fun code _ _ => Ok (mkSass code None [partialPath]))
    (fun code _ _ _ _ => Ok (PlainCode code))
    searchParams
    (decimal 0)
    posix.

Definition build : Build :=
  mkBuild (createPlugin_options (mkUserOptions None None)) false.

Definition world : World :=
  mkWorld
    (fun p =>
       if String.eqb p templatePath then Some (mkStats "11" "1700000000000")
       else if String.eqb p partialPath then Some (mkStats "12" "1700000000500")
       else None)
    (fun p => if String.eqb p templatePath then Some "<template/>" else None)
    "/proj".

(** The same files after the partial was written again. *)
Definition world_touched : World :=
  mkWorld
    (fun p =>
       if String.eqb p templatePath then Some (mkStats "11" "1700000000000")
       else if String.eqb p partialPath then Some (mkStats "12" "1700000009999")
       else None)
    (fs_readFile world)
    "/proj".

Definition mainRequest : OnLoadArgs := mkArgs templatePath "".
Definition styleRequest : OnLoadArgs :=
  mkArgs templatePath "?type=componentStylesheet&scope=eX&i=0".
Definition scriptRequest : OnLoadArgs :=
  mkArgs templatePath "?type=componentScript&i=0".
Definition missingStyleRequest : OnLoadArgs :=
  mkArgs templatePath "?type=componentStylesheet&scope=eX&i=3".

(** The state after the main request, and after the inline stylesheet
    was then loaded. *)
Definition compiledState : PluginState :=
  snd (onLoad_html build world mainRequest initialState).
Definition styledState : PluginState :=
  snd (onLoad_html build world styleRequest compiledState).

(** The template file written again, and the state after the template
    was then requested once more. *)
Definition world_edited : World :=
  mkWorld
    (fun p =>
       if String.eqb p templatePath then Some (mkStats "11" "1700000007777")
       else fs_stat world p)
    (fs_readFile world)
    "/proj".
Definition recompiledState : PluginState :=
  snd (onLoad_html build world_edited mainRequest styledState).

(** The same metadata later on, with no file that can be read. *)
Definition world_later : World :=
  mkWorld (fs_stat world) (fun _ => None) "/proj".

Definition result_of {A} (r : Result (option A)) : option A :=
  match r with
  | Ok a => a
  | Throw _ => None
  end.

Definition mainOutput : option OnLoadResult :=
  result_of (fst (onLoad_html build world mainRequest initialState)).
Definition recompiledOutput : option OnLoadResult :=
  result_of (fst (onLoad_html build world_edited mainRequest styledState)).

Definition emptyEntry : TemplateCacheEntry :=
  mkTemplateEntry (mkCacheEntry "" "" "" None None None) [] [] ∅.

(** The entry of the template after the main request, and after the
    inline stylesheet was loaded. *)
Definition compiledEntry : TemplateCacheEntry :=
  default emptyEntry (templateCache compiledState !! templatePath).
Definition styledEntry : TemplateCacheEntry :=
  default emptyEntry (templateCache styledState !! templatePath).

(** The entry of the inline stylesheet in the sub-cache. *)
Definition styleEntry : CacheEntry :=
  default (entry emptyEntry)
    (entry_styleCache styledEntry !! getAbsoluteUrl styleRequest).

End Demo.

(** * Further vocabulary *)

(** [ch === '\r' || ch === '\n']. *)
Definition is_break (o : option ascii) : bool := is_char CR o || is_char LF o.

(** A span of [text] that holds one line: no line feed before its last
    character; a carriage return before the last character only as the
    first half of a closing CR LF; a line break at its end unless the
    span ends the text; and no CR LF pair cut in two by its end. *)
Definition one_line (text : string) (x : Line) : Prop :=
  (forall p, line_start x <= p -> S p < line_end x ->
     is_char LF (charAt text p) = false)
  /\ (forall p, line_start x <= p -> S p < line_end x ->
        is_char CR (charAt text p) = true ->
        S (S p) = line_end x /\ is_char LF (charAt text (S p)) = true)
  /\ (line_end x < String.length text ->
        is_break (charAt text (line_end x - 1)) = true)
  /\ (is_char CR (charAt text (line_end x - 1)) = true ->
        is_char LF (charAt text (line_end x)) = false).

(** The text has no character [c]. *)
Definition no_char (c : ascii) (s : string) : bool :=
  forallb (fun c' => negb (Ascii.eqb c' c)) (list_ascii_of_string s).

(** The characters [toSafe] takes away. *)
Definition is_unsafe_char (c : ascii) : bool :=
  Ascii.eqb c "+" || Ascii.eqb c "/" || Ascii.eqb c "=".

(** Events by the tool they come from: [fs.stat] alone; the file
    system; the compilation of a template; the processing of a
    stylesheet, from a file and from an inline text; and what a
    sub-resource request may do. *)
Definition stat_event (e : Event) : bool :=
  match e with
  | EvStat _ => true
  | _ => false
  end.

Definition file_event (e : Event) : bool :=
  match e with
  | EvStat _ | EvReadFile _ => true
  | _ => false
  end.

Definition template_event (e : Event) : bool :=
  match e with
  | EvStat _ | EvReadFile _ | EvParse _ | EvGenerate _ => true
  | _ => false
  end.

Definition style_event (e : Event) : bool :=
  match e with
  | EvStat _ | EvReadFile _ | EvSass _ | EvScopeCSS _ => true
  | _ => false
  end.

Definition inline_style_event (e : Event) : bool :=
  match e with
  | EvStat _ | EvSass _ | EvScopeCSS _ => true
  | _ => false
  end.

Definition sub_resource_event (e : Event) : bool :=
  match e with
  | EvStat _ | EvSass _ | EvScopeCSS _ | EvWarn _ => true
  | _ => false
  end.

(** From [s] to [s'] the three maps were not written, and the events
    that were added are all [allowed]. *)
Definition wrote_nothing (allowed : Event -> bool) (s s' : PluginState) : Prop :=
  templateCache s' = templateCache s
  /\ styleCache s' = styleCache s
  /\ fileKeyCache s' = fileKeyCache s
  /\ exists evs : list Event,
       trace s' = (trace s ++ evs)%list /\ forallb allowed evs = true.

(** [m] writes none of the three maps and adds only [allowed] events,
    whatever it returns. *)
Definition quiet {A} (allowed : Event -> bool) (m : M A) : Prop :=
  forall s, wrote_nothing allowed s (snd (m s)).

(** No entry of the template cache records dependencies. *)
Definition templates_plain (s : PluginState) : Prop :=
  forall p (e : TemplateCacheEntry), templateCache s !! p = Some e -> deps e = None.

(** Every entry of the shared stylesheet cache records its dependencies,
    each path once. *)
Definition records_each_once (e : CacheEntry) : Prop :=
  exists l, deps e = Some l /\ NoDup (map fst l).

Definition styles_recorded (s : PluginState) : Prop :=
  forall url e, styleCache s !! url = Some e -> records_each_once e.


(** * More of the concrete setting *)
Module Demo2.

Definition sheetPath : string := "/proj/src/main.scss".

(** The files of [Demo.world] and a stylesheet beside them. *)
Definition world : World :=
  mkWorld
    (fun p =>
       if String.eqb p sheetPath then Some (mkStats "13" "1700000000900")
       else fs_stat Demo.world p)
    (fun p =>
       if String.eqb p sheetPath then Some "@use 'vars'; .b { margin: 0 }"
       else fs_readFile Demo.world p)
    "/proj".

(** The same files after the partial was written again. *)
Definition world_touched : World :=
  mkWorld
    (fun p =>
       if String.eqb p Demo.partialPath then Some (mkStats "12" "1700000009999")
       else fs_stat world p)
    (fs_readFile world)
    "/proj".

Definition sheetRequest : OnLoadArgs := mkArgs sheetPath "".
Definition missingRequest : OnLoadArgs := mkArgs "/proj/src/missing.css" "".

Definition emptyResult : OnLoadResult := mkOnLoad "" js None None.

(** The state after the stylesheet was loaded, and its entry. *)
Definition loadedState : PluginState :=
  snd (@onLoad_css Demo.externals Demo.build world sheetRequest initialState).
Definition sheetEntry : CacheEntry :=
  default (entry Demo.emptyEntry) (styleCache loadedState !! sheetPath).

(** The state after the stylesheet was loaded again with the partial
    touched, and what that request returned. *)
Definition reloadedState : PluginState :=
  snd (@onLoad_css Demo.externals Demo.build world_touched sheetRequest loadedState).
Definition reloadedOutput : option OnLoadResult :=
  Demo.result_of
    (fst (@onLoad_css Demo.externals Demo.build world_touched sheetRequest loadedState)).

(** The state after a request for a stylesheet that does not exist. *)
Definition failedState : PluginState :=
  snd (@onLoad_css Demo.externals Demo.build world missingRequest loadedState).

Definition mainResult : OnLoadResult := default emptyResult Demo.mainOutput.

(** The same metadata later on, with no file that can be read. *)
Definition world_later : World :=
  mkWorld (fs_stat world) (fun _ => None) "/proj".




End Demo2.

(** * Properties *)

(** ** The line scan *)

Lemma charAt_Some_lt (text : string) (i : nat) (c : ascii) :
  charAt text i = Some c -> i < String.length text.
Proof.
  unfold charAt. revert i.
  induction text as [|a text IH]; intros [|i] H; simpl in *; try discriminate; try lia.
  apply IH in H. lia.
Qed.

Lemma is_char_lt (c : ascii) (text : string) (i : nat) :
  is_char c (charAt text i) = true -> i < String.length text.
Proof.
  destruct (charAt text i) as [c'|] eqn:E; simpl; [|discriminate].
  intros _. eapply charAt_Some_lt; eauto.
Qed.

Lemma chain_le (l : list Line) (a b : nat) : chain a l b -> a <= b.
Proof.
  revert a. induction l as [|x l IH]; simpl; intros a H.
  - lia.
  - destruct H as (Hs & Hlt & Hc). apply IH in Hc. lia.
Qed.

Lemma chain_snoc (l : list Line) (a m e : nat) :
  chain a l m -> m < e -> chain a (l ++ [mkLine m e]) e.
Proof.
  revert a. induction l as [|x l IH]; simpl; intros a H Hlt.
  - subst. auto.
  - destruct H as (Hs & Hx & Hc). auto.
Qed.

Lemma chain_nonempty_spans (l : list Line) (a b : nat) :
  chain a l b -> Forall (fun x => line_start x < line_end x) l.
Proof.
  revert a. induction l as [|x l IH]; simpl; intros a H; constructor.
  - tauto.
  - destruct H as (_ & _ & Hc). eauto.
Qed.

Lemma getLines_finish_chain (start end_ : nat) (result : list Line) :
  start <= end_ -> chain 0 result start ->
  chain 0 (getLines_finish start end_ result) end_.
Proof.
  intros Hle Hc. unfold getLines_finish.
  destruct (Nat.eqb_spec start end_) as [->|Hne]; [assumption|].
  apply chain_snoc; [assumption | lia].
Qed.

(** The loop is left before the fuel runs out, and what it returns is a
    chain of spans from 0 to the length of the text. *)
Lemma getLines_loop_chain (fuel : nat) (text : string) :
  forall (start end_ : nat) (result : list Line),
    start <= end_ -> end_ <= String.length text ->
    String.length text - end_ <= fuel ->
    chain 0 result start ->
    exists r, getLines_loop fuel text start end_ result = Some r
              /\ chain 0 r (String.length text).
Proof.
  induction fuel as [|fuel IH]; intros start end_ result Hse Hel Hfuel Hc; simpl.
  - assert (end_ = String.length text) as -> by lia.
    rewrite Nat.ltb_irrefl. simpl. eexists; split; [reflexivity|].
    apply getLines_finish_chain; assumption.
  - destruct (Nat.ltb_spec end_ (String.length text)) as [Hlt|Hge]; simpl.
    + destruct (is_char CR (charAt text end_) || is_char LF (charAt text end_)) eqn:Hbreak.
      * destruct (is_char CR (charAt text end_) && is_char LF (charAt text (S end_)))
          eqn:Hcrlf.
        -- apply andb_true_iff in Hcrlf as [_ Hlf]. apply is_char_lt in Hlf.
           apply IH; try lia. apply chain_snoc; [assumption | lia].
        -- apply IH; try lia. apply chain_snoc; [assumption | lia].
      * apply IH; try lia. assumption.
    + assert (end_ = String.length text) as -> by lia.
      eexists; split; [reflexivity|].
      apply getLines_finish_chain; assumption.
Qed.

Lemma getLines_chain (text : string) : chain 0 (getLines text) (String.length text).
Proof.
  unfold getLines.
  destruct (getLines_loop_chain (String.length text) text 0 0 []) as (r & Hr & Hc);
    simpl; try lia; auto.
  rewrite Hr. exact Hc.
Qed.

(** The loop of [getLines] ends within [text.length] iterations. *)
Lemma getLines_loop_total (text : string) :
  getLines_loop (String.length text) text 0 0 [] = Some (getLines text).
Proof.
  unfold getLines.
  destruct (getLines_loop_chain (String.length text) text 0 0 []) as (r & Hr & Hc);
    simpl; try lia; auto.
  rewrite Hr. reflexivity.
Qed.

Lemma chain_head (l : list Line) (a b : nat) (x : Line) :
  chain a l b -> head l = Some x -> line_start x = a.
Proof. destruct l; simpl; [discriminate|]. intros (H & _) [= ->]. exact H. Qed.

Lemma chain_last (l : list Line) (a b : nat) (x : Line) :
  chain a l b -> last l = Some x -> line_end x = b.
Proof.
  revert a. induction l as [|y l IH]; intros a Hc Hl; [discriminate|].
  destruct Hc as (_ & _ & Hc). destruct l as [|z l].
  - simpl in *. injection Hl as ->. exact Hc.
  - apply (IH (line_end y)); [exact Hc | exact Hl].
Qed.

Lemma chain_adjacent (l : list Line) (a b : nat) (i : nat) (x y : Line) :
  chain a l b -> l !! i = Some x -> l !! S i = Some y -> line_end x = line_start y.
Proof.
  revert a i. induction l as [|z l IH]; intros a i Hc Hx Hy; [discriminate|].
  destruct Hc as (_ & _ & Hc). destruct i as [|i]; simpl in *.
  - injection Hx as ->. destruct l as [|z' l]; [discriminate|].
    simpl in Hy. injection Hy as ->. symmetry. apply Hc.
  - eapply IH; eauto.
Qed.

(** Every span of a chain lies between its two ends. *)
Lemma chain_bounds (l : list Line) (a b : nat) (i : nat) (x : Line) :
  chain a l b -> l !! i = Some x -> a <= line_start x /\ line_end x <= b.
Proof.
  revert a i. induction l as [|z l IH]; intros a i Hc Hx; [discriminate|].
  destruct Hc as (Hs & Hlt & Hc). destruct i as [|i]; simpl in *.
  - injection Hx as ->. apply chain_le in Hc. lia.
  - destruct (IH _ _ Hc Hx). lia.
Qed.

Lemma chain_cover (l : list Line) (a b pos : nat) :
  chain a l b -> a <= pos < b ->
  exists i x, l !! i = Some x
    /\ line_start x <= pos < line_end x
    /\ forall j y, l !! j = Some y -> line_start y <= pos < line_end y -> j = i.
Proof.
  revert a. induction l as [|z l IH]; simpl; intros a Hc Hpos; [lia|].
  destruct Hc as (Hs & Hlt & Hc).
  destruct (Nat.lt_ge_cases pos (line_end z)) as [Hin|Hout].
  - exists 0, z. split; [reflexivity|]. split; [lia|].
    intros [|j] y Hy Hp; [reflexivity|]. simpl in Hy.
    destruct (chain_bounds _ _ _ _ _ Hc Hy). lia.
  - destruct (IH _ Hc) as (i & x & Hx & Hp & Huniq); [lia|].
    exists (S i), x. split; [exact Hx|]. split; [exact Hp|].
    intros [|j] y Hy Hq; simpl in Hy.
    + injection Hy as ->. lia.
    + f_equal. eapply Huniq; eauto.
Qed.

(** C10. The spans of [getLines] split the text: no span for the empty
    text; the first span starts at 0; each span ends where the next one
    starts; the last span ends at the length of the text; and every
    offset below the length lies in exactly one span. *)
Theorem getLines_partition (text : string) :
  getLines "" = []
  /\ (forall x, head (getLines text) = Some x -> line_start x = 0)
  /\ (forall i x y, getLines text !! i = Some x -> getLines text !! S i = Some y ->
        line_end x = line_start y)
  /\ (forall x, last (getLines text) = Some x -> line_end x = String.length text)
  /\ (forall pos, pos < String.length text ->
        exists i x, getLines text !! i = Some x
          /\ line_start x <= pos < line_end x
          /\ forall j y, getLines text !! j = Some y ->
               line_start y <= pos < line_end y -> j = i).
Proof.
  pose proof (getLines_chain text) as Hc.
  split; [reflexivity|].
  split; [intros x; apply (chain_head _ _ _ _ Hc)|].
  split; [intros i x y; apply (chain_adjacent _ _ _ _ _ _ Hc)|].
  split; [intros x; apply (chain_last _ _ _ _ Hc)|].
  intros pos Hpos. apply (chain_cover _ _ _ _ Hc). lia.
Qed.

(** ** Diagnostics *)

Lemma findIndex_from_none {A} (p : A -> bool) (l : list A) (i : nat) :
  Forall (fun x => p x = false) l -> findIndex_from p l i = None.
Proof.
  intros H. revert i. induction H as [|x l Hx _ IH]; intros i; simpl.
  - reflexivity.
  - rewrite Hx. apply IH.
Qed.

(** No span passes the test of [createMessage]: it asks for
    [line.start >= pos] and [line.end < pos] at once. *)
Lemma line_matches_nonempty (pos : Z) (x : Line) :
  line_start x < line_end x -> line_matches pos x = false.
Proof.
  intros H. unfold line_matches.
  destruct (Z.leb_spec pos (Z.of_nat (line_start x))); simpl; [|reflexivity].
  apply Z.ltb_ge. lia.
Qed.

(** C4. [createMessage] returns nothing for every message, offset and
    source: also for an offset inside a span, the diagnostic is dropped. *)
Theorem createMessage_drops_every_warning (message : string) (pos : Z)
    (code file : string) :
  createMessage message pos code file = None.
Proof.
  unfold createMessage, findIndex.
  rewrite findIndex_from_none; [reflexivity|].
  eapply Forall_impl; [apply (chain_nonempty_spans _ _ _ (getLines_chain code))|].
  intros x Hx. apply line_matches_nonempty. exact Hx.
Qed.

(** ** The fingerprint *)

(** The digests of RFC 1321's test suite for the empty text and [abc]
    ([d41d8cd9...] and [90015098...]), in base64. *)
Example md5_empty : md5_digest_base64 "" = "1B2M2Y8AsgTpgAmY7PhCfg==".
Proof. vm_compute. reflexivity. Qed.

Example md5_abc : md5_digest_base64 "abc" = "kAFQmDzST7DWlj99KOF/cg==".
Proof. vm_compute. reflexivity. Qed.

Example computeHash_replaces_plus :
  md5_digest_base64
    "12345678901234567890123456789012345678901234567890123456789012345678901234567890"
    = "V+30oivjyVWsSdouIQe2eg=="
  /\ computeHash
       "12345678901234567890123456789012345678901234567890123456789012345678901234567890"
     = "V-30oivjyV".
Proof. split; vm_compute; reflexivity. Qed.

(** A base64 digit is never the padding character: [toSafe] turns it into
    exactly one character of the safe alphabet. *)
Lemma toSafe_digit (n : Z) :
  exists c, is_safe_char c = true
    /\ forall rest, toSafe (String (Base64.digit n) rest) = String c (toSafe rest).
Proof.
  unfold Base64.digit.
  assert (Z.to_nat (n mod 64) < 64) as Hlt
    by (pose proof (Z.mod_pos_bound n 64); lia).
  remember (Z.to_nat (n mod 64)) as k eqn:Hk. clear Hk.
  do 64 (destruct k as [|k]; [eexists; split; [|intros rest; reflexivity]; reflexivity|]).
  lia.
Qed.

Ltac safe_digits :=
  repeat match goal with
  | |- context [toSafe (String (Base64.digit ?e) _)] =>
      let c := fresh "c" in
      let Hc := fresh "Hc" in
      let Hr := fresh "Hr" in
      destruct (toSafe_digit e) as (c & Hc & Hr); rewrite Hr; clear Hr
  end.

(** A hash is ten characters of the safe alphabet. *)
Lemma computeHash_format (input : string) :
  String.length (computeHash input) = hash_length
  /\ forallb is_safe_char (list_ascii_of_string (computeHash input)) = true.
Proof.
  unfold computeHash, md5_digest_base64, MD5.digest_bytes.
  destruct (MD5.blocks _ _ _) as [[[a b] c] d].
  unfold MD5.word_bytes. cbn [app Base64.encode].
  safe_digits.
  cbn [substr0 hash_length String.substring String.length list_ascii_of_string forallb].
  split; [reflexivity|].
  repeat match goal with H : is_safe_char _ = true |- _ => rewrite H; clear H end.
  reflexivity.
Qed.

Lemma computeHash_truthy (input : string) : truthy (computeHash input) = true.
Proof.
  destruct (computeHash_format input) as [Hlen _].
  destruct (computeHash input); [discriminate Hlen | reflexivity].
Qed.

Lemma memo_ok_empty : memo_ok ∅.
Proof. intros x v H. rewrite lookup_empty in H. discriminate. Qed.

(** On a table that holds only hashes, a call returns the hash of its
    input and leaves a table that holds only hashes. *)
Lemma safeBase64Hash_memo_ok (input : string) (table : gmap string string) :
  memo_ok table ->
  fst (safeBase64Hash input table) = computeHash input
  /\ memo_ok (snd (safeBase64Hash input table))
  /\ snd (safeBase64Hash input table) !! input = Some (computeHash input)
  /\ forall x v, table !! x = Some v -> snd (safeBase64Hash input table) !! x = Some v.
Proof.
  intros Hok. unfold safeBase64Hash.
  assert (memo_ok (<[input := computeHash input]> table)) as Hins.
  { intros x v. rewrite lookup_insert. case_decide; [intros [= <-]; congruence | apply Hok]. }
  destruct (table !! input) as [h|] eqn:Hh.
  - pose proof (Hok _ _ Hh) as ->. rewrite computeHash_truthy. simpl. auto.
  - simpl. split; [reflexivity|]. split; [exact Hins|].
    split; [apply lookup_insert_eq|].
    intros x v Hx. rewrite lookup_insert_ne; [exact Hx | congruence].
Qed.

Lemma reachable_memo_ok (table : gmap string string) :
  reachable_hashes table -> memo_ok table.
Proof.
  induction 1 as [|input table _ IH]; [apply memo_ok_empty|].
  apply safeBase64Hash_memo_ok, IH.
Qed.

(** A hit: a table entry that is not empty is returned as it is, and the
    table is left alone. *)
Lemma safeBase64Hash_hit (input h : string) (table : gmap string string) :
  table !! input = Some h -> truthy h = true ->
  safeBase64Hash input table = (h, table).
Proof. intros Hh Ht. unfold safeBase64Hash. rewrite Hh, Ht. reflexivity. Qed.

(** C7. At any two moments of a process, [safeBase64Hash] returns the same
    token for the same input; the token is stored under its input, the
    next call returns the stored token without touching the table, a
    later call for any input keeps it stored; and the token is ten
    characters long, each of the alphabet A-Z a-z 0-9 - _. *)
Theorem safeBase64Hash_deterministic_format (input : string)
    (table1 table2 : gmap string string) :
  reachable_hashes table1 -> reachable_hashes table2 ->
  let token := fst (safeBase64Hash input table1) in
  let table := snd (safeBase64Hash input table1) in
  token = fst (safeBase64Hash input table2)
  /\ table !! input = Some token
  /\ safeBase64Hash input table = (token, table)
  /\ (forall other, snd (safeBase64Hash other table) !! input = Some token)
  /\ String.length token = 10
  /\ forallb is_safe_char (list_ascii_of_string token) = true.
Proof.
  intros H1 H2 token table. subst token table.
  apply reachable_memo_ok in H1, H2.
  destruct (safeBase64Hash_memo_ok input _ H1) as (Ht & Hok & Hstored & _).
  destruct (safeBase64Hash_memo_ok input _ H2) as (Ht2 & _).
  rewrite Ht, Ht2.
  split; [reflexivity|]. split; [exact Hstored|].
  split; [apply safeBase64Hash_hit; [exact Hstored | apply computeHash_truthy]|].
  split.
  - intros other.
    destruct (safeBase64Hash_memo_ok other _ Hok) as (_ & _ & _ & Hkeep).
    apply Hkeep, Hstored.
  - apply computeHash_format.
Qed.

Lemma safeBase64Hash_deterministic_format_witness :
  let input := "components/button/index.html" in
  let table1 := (∅ : gmap string string) in
  let table2 := snd (safeBase64Hash "other" (snd (safeBase64Hash input ∅))) in
  let token := fst (safeBase64Hash input table1) in
  let table := snd (safeBase64Hash input table1) in
  token = fst (safeBase64Hash input table2)
  /\ table !! input = Some token
  /\ safeBase64Hash input table = (token, table)
  /\ (forall other, snd (safeBase64Hash other table) !! input = Some token)
  /\ String.length token = 10
  /\ forallb is_safe_char (list_ascii_of_string token) = true.
Proof.
  apply (safeBase64Hash_deterministic_format "components/button/index.html" ∅
           (snd (safeBase64Hash "other"
                   (snd (safeBase64Hash "components/button/index.html" ∅))))).
  - apply reachable_empty.
  - apply reachable_call, reachable_call, reachable_empty.
Defined.

(** ** File identity and validation *)

Section PluginFacts.
Context `{ext : Externals}.

Lemma same_caches_refl (s : PluginState) : same_caches s s.
Proof. repeat split. Qed.

Lemma same_caches_trans (s1 s2 s3 : PluginState) :
  same_caches s1 s2 -> same_caches s2 s3 -> same_caches s1 s3.
Proof.
  intros (A1 & A2 & A3 & A4) (B1 & B2 & B3 & B4).
  repeat split; congruence.
Qed.

Lemma only_stats_refl (s : PluginState) : only_stats s s.
Proof.
  split; [apply same_caches_refl|]. exists []. split; [|constructor].
  symmetry. apply app_nil_r.
Qed.

Lemma only_stats_trans (s1 s2 s3 : PluginState) :
  only_stats s1 s2 -> only_stats s2 s3 -> only_stats s1 s3.
Proof.
  intros (C1 & evs1 & T1 & F1) (C2 & evs2 & T2 & F2).
  split; [eapply same_caches_trans; eauto|].
  exists (evs1 ++ evs2)%list. split.
  - rewrite T2, T1. symmetry. apply app_assoc.
  - apply Forall_app; auto.
Qed.

Lemma only_stats_memo (s s' : PluginState) :
  only_stats s s' -> fileKeyCache s' = fileKeyCache s.
Proof. intros ((_ & _ & H & _) & _). exact H. Qed.

(** A call of [getCacheKey] yields the identity of the path and does
    nothing but, at most, one [fs.stat]; the memo is left as it was. *)
Lemma getCacheKey_run (w : World) (filePath : string) (s : PluginState) :
  exists s', getCacheKey w filePath s = (identity w (fileKeyCache s) filePath, s')
             /\ only_stats s s'.
Proof.
  unfold getCacheKey, identity.
  destruct (fileKeyCache s !! filePath) as [value|].
  - exists s. split; [reflexivity | apply only_stats_refl].
  - unfold bind, stat, emit, ret, throw. simpl.
    eexists. split.
    + destruct (fs_stat w filePath); reflexivity.
    + split; [repeat split|]. simpl. eexists. split; [reflexivity|].
      repeat constructor.
Qed.

Lemma getCacheKey_fst (w : World) (filePath : string) (s : PluginState) :
  fst (getCacheKey w filePath s) = identity w (fileKeyCache s) filePath.
Proof. destruct (getCacheKey_run w filePath s) as (s' & -> & _). reflexivity. Qed.

(** The loop over the recorded dependencies: it only calls [fs.stat];
    it yields [true] exactly when every recorded key is the identity of
    its path; and it yields [false] on a mismatch when no path before
    it fails to resolve. *)
Lemma isValidEntry_deps_run (w : World) (entries : list (string * CacheKey)) :
  forall s, exists r s',
    isValidEntry_deps w entries s = (r, s')
    /\ only_stats s s'
    /\ (r = Ok true <->
        forall d k, (d, k) ∈ entries -> identity w (fileKeyCache s) d = Ok k)
    /\ ((forall d k, (d, k) ∈ entries ->
           exists k', identity w (fileKeyCache s) d = Ok k') ->
        exists b, r = Ok b).
Proof.
  induction entries as [|[d0 k0] rest IH]; intros s; simpl.
  - exists (Ok true), s. split; [reflexivity|]. split; [apply only_stats_refl|].
    split; [|eauto]. split; [|reflexivity].
    intros _ d k Hin. apply elem_of_nil in Hin. contradiction.
  - unfold bind at 1.
    destruct (getCacheKey_run w d0 s) as (s1 & -> & Hs1).
    destruct (identity w (fileKeyCache s) d0) as [current|e] eqn:Hid.
    + destruct (String.eqb_spec k0 current) as [->|Hne]; simpl.
      * destruct (IH s1) as (r & s' & -> & Hs' & Hiff & Hres).
        rewrite (only_stats_memo _ _ Hs1) in Hiff, Hres.
        exists r, s'. split; [reflexivity|].
        split; [eapply only_stats_trans; eauto|]. split.
        -- rewrite Hiff. split.
           ++ intros H d k [[= -> ->]|Hin]%elem_of_cons; auto.
           ++ intros H d k Hin. apply H. apply elem_of_cons. auto.
        -- intros H. apply Hres. intros d k Hin. apply (H d k).
           apply elem_of_cons. auto.
      * exists (Ok false), s1. split; [reflexivity|]. split; [exact Hs1|].
        split; [|eauto]. split; [discriminate|].
        intros H. specialize (H d0 k0 ltac:(apply elem_of_cons; auto)).
        congruence.
    + exists (Throw e), s1. split; [reflexivity|]. split; [exact Hs1|]. split.
      * split; [discriminate|].
        intros H. specialize (H d0 k0 ltac:(apply elem_of_cons; auto)).
        congruence.
      * intros H. destruct (H d0 k0 ltac:(apply elem_of_cons; auto)) as (k' & Hk').
        congruence.
Qed.

Lemma isValidEntry_run (w : World) (e : CacheEntry) (currentKey : CacheKey)
    (s : PluginState) :
  exists r s',
    isValidEntry w e currentKey s = (r, s')
    /\ only_stats s s'
    /\ (r = Ok true <->
        cacheKey e = currentKey
        /\ forall d k, (d, k) ∈ recorded e -> identity w (fileKeyCache s) d = Ok k)
    /\ ((forall d k, (d, k) ∈ recorded e ->
           exists k', identity w (fileKeyCache s) d = Ok k') ->
        exists b, r = Ok b).
Proof.
  unfold isValidEntry, recorded.
  destruct (String.eqb_spec (cacheKey e) currentKey) as [Heq|Hne]; simpl.
  - destruct (deps e) as [entries|]; simpl.
    + destruct (isValidEntry_deps_run w entries s) as (r & s' & Hrun & Hs & Hiff & Hres).
      exists r, s'. split; [exact Hrun|]. split; [exact Hs|].
      split; [|exact Hres]. rewrite Hiff. tauto.
    + exists (Ok true), s. split; [reflexivity|]. split; [apply only_stats_refl|].
      split; [|eauto]. split; [|reflexivity].
      intros _. split; [exact Heq|].
      intros d k Hin. apply elem_of_nil in Hin. contradiction.
  - exists (Ok false), s. split; [reflexivity|]. split; [apply only_stats_refl|].
    split; [|eauto]. split; [discriminate | tauto].
Qed.





(** C2. [getCacheKey] never writes the memo: right after a "build
    starting" event, two calls for one path read the metadata twice,
    and the memo is still empty. *)
Theorem getCacheKey_stats_again (w : World) (filePath : string) (s : PluginState) :
  let s0 := snd (onStart s) in
  let s1 := snd (getCacheKey w filePath s0) in
  let s2 := snd (getCacheKey w filePath s1) in
  fileKeyCache s1 = ∅
  /\ fileKeyCache s2 = ∅
  /\ trace s2 = (trace s ++ [EvStat filePath; EvStat filePath])%list.
Proof.
  unfold onStart, set_fileKeyCache, getCacheKey. simpl.
  rewrite lookup_empty.
  unfold bind, stat, emit, ret, throw. simpl.
  destruct (fs_stat w filePath); simpl; rewrite lookup_empty; simpl;
    rewrite <- app_assoc; auto.
Qed.

End PluginFacts.

(** ** The template handler *)

Section HandlerFacts.
Context `{ext : Externals}.

(** [compileTemplate] writes neither of the three maps, and the entry
    it returns carries the key it was given, no dependencies and an
    empty sub-cache. *)
Lemma compileTemplate_run (w : World) (filePath : string) (key : CacheKey)
    (options : EndorphinPluginOptions) (s s' : PluginState) (e : TemplateCacheEntry) :
  compileTemplate w filePath key options s = (Ok e, s') ->
  templateCache s' = templateCache s
  /\ styleCache s' = styleCache s
  /\ fileKeyCache s' = fileKeyCache s
  /\ cacheKey e = key
  /\ deps e = None
  /\ entry_styleCache e = ∅.
Proof.
  unfold compileTemplate, readFile, makeCompileOptions, createScopeSuffix, hashM,
    bind, emit, lift, ret, throw.
  simpl.
  destruct (fs_readFile w filePath) as [text|]; [|discriminate].
  destruct (safeBase64Hash _ _) as [h table]. simpl.
  destruct (parse _ _ _) as [[parsed warned1]|]; [|discriminate].
  destruct (generate _ _) as [[result warned2]|]; [|discriminate].
  intros [= <- <-]. simpl. repeat split.
Qed.

(** What a request for the template itself does when it returns: the
    key is computed; then either the entry of the path passes
    validation and is served, or a fresh entry is compiled and put in
    its place. *)
Lemma onLoad_html_main_run (b : Build) (w : World) (args : OnLoadArgs)
    (s s' : PluginState) (out : option OnLoadResult) :
  truthy (args_suffix args) = false ->
  onLoad_html b w args s = (Ok out, s') ->
  exists key s1,
    getCacheKey w (args_path args) s = (Ok key, s1)
    /\ ((exists old : TemplateCacheEntry,
           templateCache s !! args_path args = Some old
           /\ isValidEntry w old key s1 = (Ok true, s')
           /\ out = Some (mkOnLoad (code old) js (warnings old) None))
        \/ (exists s2 s3 fresh,
              (templateCache s !! args_path args = None /\ s2 = s1
               \/ exists old : TemplateCacheEntry,
                    templateCache s !! args_path args = Some old
                    /\ isValidEntry w old key s1 = (Ok false, s2))
              /\ compileTemplate w (args_path args) key (build_options b) s2
                 = (Ok fresh, s3)
              /\ s' = mkState (<[args_path args := fresh]> (templateCache s3))
                        (styleCache s3) (fileKeyCache s3) (hashes s3) (trace s3)
              /\ out = Some (mkOnLoad (code fresh) js (warnings fresh) None))).
Proof.
  intros Hsuffix. unfold onLoad_html. rewrite Hsuffix.
  unfold bind at 1.
  destruct (getCacheKey w (args_path args) s) as [[key|err] s1] eqn:Hkey;
    [|discriminate].
  intros Hrun. exists key, s1. split; [reflexivity|].
  unfold bind at 1 in Hrun.
  destruct (templateCache s !! args_path args) as [old|] eqn:Hold.
  - destruct (isValidEntry w old key s1) as [[[|]|err] s2] eqn:Hvalid;
      [| |discriminate].
    + left. exists old. unfold bind, ret in Hrun. simpl in Hrun.
      injection Hrun as <- <-. auto.
    + right. unfold bind at 1 in Hrun. unfold bind at 1 in Hrun.
      destruct (compileTemplate _ _ _ _ s2) as [[fresh|err] s3] eqn:Hc;
        [|discriminate].
      unfold set_templateCache, bind, ret in Hrun. simpl in Hrun.
      injection Hrun as <- <-.
      exists s2, s3, fresh. split; [right; eauto|]. auto.
  - right. unfold ret at 1 in Hrun.
    unfold bind at 1 in Hrun. unfold bind at 1 in Hrun.
    destruct (compileTemplate _ _ _ _ s1) as [[fresh|err] s3] eqn:Hc;
      [|discriminate].
    unfold set_templateCache, bind, ret in Hrun. simpl in Hrun.
    injection Hrun as <- <-.
    exists s1, s3, fresh. split; [left; auto|]. auto.
Qed.

(** C9. An entry made by [compileTemplate] has an empty sub-cache.  A
    request for the template itself either leaves the template cache as
    it was, or puts under the path a fresh entry whose sub-cache is
    empty: no sub-entry of the entry it replaces can be looked up any
    more.  The second case is the one taken when the entry under the
    path has a key other than the current one. *)
Theorem recompile_resets_subcache (b : Build) (w : World) (args : OnLoadArgs)
    (s s' : PluginState) (out : option OnLoadResult) :
  truthy (args_suffix args) = false ->
  onLoad_html b w args s = (Ok out, s') ->
  (forall w0 filePath key options s0 s1 e,
      compileTemplate w0 filePath key options s0 = (Ok e, s1) ->
      entry_styleCache e = ∅)
  /\ (templateCache s' = templateCache s
      \/ exists fresh,
           templateCache s' = <[args_path args := fresh]> (templateCache s)
           /\ entry_styleCache fresh = ∅
           /\ forall suffix, truthy suffix = true ->
                html_backing_entry s' (mkArgs (args_path args) suffix) = None)
  /\ (forall (old : TemplateCacheEntry) key,
        templateCache s !! args_path args = Some old ->
        fst (getCacheKey w (args_path args) s) = Ok key ->
        cacheKey old <> key ->
        exists fresh : TemplateCacheEntry,
          templateCache s' !! args_path args = Some fresh
          /\ cacheKey fresh = key
          /\ entry_styleCache fresh = ∅).
Proof.
  intros Hsuffix Hrun.
  split.
  { intros w0 filePath key options s0 s1 e Hc. apply compileTemplate_run in Hc. tauto. }
  destruct (onLoad_html_main_run _ _ _ _ _ _ Hsuffix Hrun)
    as (key & s1 & Hkey & [(old & Hold & Hvalid & _)|(s2 & s3 & fresh & Hmiss & Hc & -> & _)]).
  - destruct (getCacheKey_run w (args_path args) s) as (s1' & Hk' & Hs1).
    rewrite Hkey in Hk'. injection Hk' as Hid <-.
    destruct (isValidEntry_run w old key s1) as (r & s2 & Hv & Hs2 & Hiff & _).
    rewrite Hvalid in Hv. injection Hv as <- <-.
    split.
    + left. destruct (only_stats_trans _ _ _ Hs1 Hs2) as ((H & _) & _). exact H.
    + intros old' key' Hold' Hkey' Hne. exfalso.
      rewrite Hold in Hold'. injection Hold' as <-.
      rewrite getCacheKey_fst, <- Hid in Hkey'. injection Hkey' as <-.
      destruct Hiff as [Hiff _]. destruct (Hiff eq_refl) as [Heq _]. contradiction.
  - apply compileTemplate_run in Hc as (Ht & _ & _ & Hk & _ & Hempty).
    assert (templateCache s2 = templateCache s) as Hs2.
    { destruct (getCacheKey_run w (args_path args) s) as (s1' & Hk' & ((H1 & _) & _)).
      rewrite Hkey in Hk'. injection Hk' as _ <-.
      destruct Hmiss as [[_ ->]|(old & _ & Hvalid)]; [exact H1|].
      destruct (isValidEntry_run w old key s1) as (r & s2' & Hv & ((H2 & _) & _) & _).
      rewrite Hvalid in Hv. injection Hv as _ <-. congruence. }
    simpl. split.
    + right. exists fresh. split; [congruence|]. split; [exact Hempty|].
      intros suffix Hsfx. unfold html_backing_entry. simpl. rewrite Hsfx.
      rewrite lookup_insert_eq. simpl. rewrite Hempty. apply lookup_empty.
    + intros old key' _ Hkey' _. exists fresh.
      rewrite lookup_insert_eq. split; [reflexivity|].
      rewrite Hkey in Hkey'. simpl in Hkey'. injection Hkey' as <-. auto.
Qed.

Lemma option_eqb_string (x : option string) (y : string) :
  option_eqb String.eqb x (Some y) = true <-> x = Some y.
Proof.
  destruct x as [x|]; simpl; [|split; discriminate].
  rewrite String.eqb_eq. split; congruence.
Qed.

(** C5. A request for an inline stylesheet whose index has no content
    on the style list of the template entry returns nothing, does not
    throw, and leaves the state, the events with it, as it was:
    [console.warn] is not called. *)
Theorem missing_inline_stylesheet_is_silent (b : Build) (w : World)
    (args : OnLoadArgs) (s : PluginState) (compiled : TemplateCacheEntry) :
  truthy (args_suffix args) = true ->
  templateCache s !! args_path args = Some compiled ->
  request_type args = Some "componentStylesheet" ->
  has_content (at_index (styles compiled) (request_index args) ≫= res_content) = false ->
  onLoad_html b w args s = (Ok None, s).
Proof.
  intros Hsuffix Hcompiled Htype Hcontent.
  unfold request_type, request_index in *.
  unfold onLoad_html. rewrite Hsuffix, Hcompiled, Htype. simpl option_eqb.
  cbv beta iota zeta. change (String.eqb "componentStylesheet" "componentStylesheet")
    with true. cbv iota.
  rewrite Hcontent. reflexivity.
Qed.

(** The sibling branch does warn: a request for an inline script whose
    index has no content calls [console.warn] once. *)
Lemma missing_inline_script_warns (b : Build) (w : World)
    (args : OnLoadArgs) (s : PluginState) (compiled : TemplateCacheEntry) :
  truthy (args_suffix args) = true ->
  templateCache s !! args_path args = Some compiled ->
  request_type args = Some "componentScript" ->
  has_content (at_index (scripts compiled) (request_index args) ≫= res_content) = false ->
  exists s', onLoad_html b w args s = (Ok None, s')
             /\ trace s' = (trace s ++ [EvWarn "No inline script"])%list.
Proof.
  intros Hsuffix Hcompiled Htype Hcontent.
  unfold request_type, request_index in *.
  unfold onLoad_html. rewrite Hsuffix, Hcompiled, Htype. simpl option_eqb.
  cbv beta iota zeta.
  change (String.eqb "componentScript" "componentStylesheet") with false.
  change (String.eqb "componentScript" "componentScript") with true. cbv iota.
  rewrite Hcontent. eexists. split; reflexivity.
Qed.

(** C8. A request with a suffix throws when the template cache has no
    entry for the path; with an entry, a [componentScript] request whose
    index holds content returns that content, with the loader [ts] when
    the declared type is [ts] or [typescript] and [js] otherwise. *)
Theorem subresource_needs_compiled_template (b : Build) (w : World)
    (args : OnLoadArgs) (s : PluginState) :
  truthy (args_suffix args) = true ->
  (templateCache s !! args_path args = None ->
   exists message, onLoad_html b w args s = (Throw message, s))
  /\ (forall (compiled : TemplateCacheEntry) script text,
        templateCache s !! args_path args = Some compiled ->
        request_type args = Some "componentScript" ->
        at_index (scripts compiled) (request_index args) = Some script ->
        res_content script = Some text ->
        truthy text = true ->
        exists out,
          onLoad_html b w args s = (Ok (Some out), s)
          /\ contents out = text
          /\ (res_type script = Some "ts" \/ res_type script = Some "typescript" ->
              loader out = ts)
          /\ (res_type script <> Some "ts" -> res_type script <> Some "typescript" ->
              loader out = js)).
Proof.
  intros Hsuffix. split.
  - intros Hnone. unfold onLoad_html. rewrite Hsuffix, Hnone.
    eexists. reflexivity.
  - intros compiled script text Hcompiled Htype Hscript Htext Htruthy.
    unfold request_type, request_index in *.
    unfold onLoad_html. rewrite Hsuffix, Hcompiled, Htype. simpl option_eqb.
    cbv beta iota zeta.
    change (String.eqb "componentScript" "componentStylesheet") with false.
    change (String.eqb "componentScript" "componentScript") with true. cbv iota.
    rewrite Hscript. simpl. rewrite Htext. simpl. rewrite Htruthy.
    eexists. split; [reflexivity|]. simpl. split; [reflexivity|]. split.
    + intros [Ht|Ht]; rewrite Ht; reflexivity.
    + intros Hts Htypescript.
      destruct (option_eqb String.eqb (res_type script) (Some "ts")) eqn:E1.
      { apply option_eqb_string in E1. contradiction. }
      destruct (option_eqb String.eqb (res_type script) (Some "typescript")) eqn:E2.
      { apply option_eqb_string in E2. contradiction. }
      reflexivity.
Qed.

(** ** Names and scope tokens *)


End HandlerFacts.

(** ** Loading twice *)

Section Idempotence.
Context `{ext : Externals}.

Lemma identity_unchanged (w1 w2 : World) (memo : gmap string string) (p : string) :
  fs_stat w2 p = fs_stat w1 p -> identity w2 memo p = identity w1 memo p.
Proof. intros H. unfold identity. rewrite H. reflexivity. Qed.

Lemma map_set_elem (k : string) (v : CacheKey) (m : list (string * CacheKey))
    (x : string) (y : CacheKey) :
  (x, y) ∈ map_set k v m -> (x, y) = (k, v) \/ (x, y) ∈ m.
Proof.
  induction m as [|[k' v'] m IH]; simpl.
  - intros [->|Hin%elem_of_nil]%elem_of_cons; [auto | contradiction].
  - destruct (String.eqb k' k).
    + intros [->|Hin]%elem_of_cons; [auto|]. right. apply elem_of_cons. auto.
    + intros [->|Hin]%elem_of_cons.
      * right. apply elem_of_cons. auto.
      * destruct (IH Hin) as [?|?]; [auto|]. right. apply elem_of_cons. auto.
Qed.

(** Recording the dependencies only calls [fs.stat], and every key it
    records is the identity of its path. *)
Lemma recordDeps_run (w : World) (paths : list string) :
  forall (acc : list (string * CacheKey)) (s : PluginState),
  exists r s',
    recordDeps w paths acc s = (r, s')
    /\ only_stats s s'
    /\ forall l, r = Ok l ->
         (forall d k, (d, k) ∈ acc -> identity w (fileKeyCache s) d = Ok k) ->
         forall d k, (d, k) ∈ l -> identity w (fileKeyCache s) d = Ok k.
Proof.
  induction paths as [|p paths IH]; intros acc s; simpl.
  - exists (Ok acc), s. split; [reflexivity|]. split; [apply only_stats_refl|].
    intros l [= <-] H. exact H.
  - unfold bind at 1.
    destruct (getCacheKey_run w p s) as (s1 & -> & Hs1).
    destruct (identity w (fileKeyCache s) p) as [key|err] eqn:Hid.
    + destruct (IH (map_set p key acc) s1) as (r & s' & -> & Hs' & Hr).
      exists r, s'. split; [reflexivity|].
      split; [eapply only_stats_trans; eauto|].
      intros l Hl Hacc. rewrite (only_stats_memo _ _ Hs1) in Hr.
      apply (Hr l Hl). intros d k [[= -> ->]|Hin]%map_set_elem; auto.
    + exists (Throw err), s1. split; [reflexivity|]. split; [exact Hs1|].
      discriminate.
Qed.

Lemma processStylesheet_frame (text : string) (options : ProcessStylesheetOptions)
    (s s' : PluginState) (r : Result ProcessedStylesheet) :
  processStylesheet text options s = (r, s') -> same_caches s s'.
Proof.
  unfold processStylesheet, bind, emit, lift, ret.
  destruct (so_type options); simpl.
  - destruct (sass_compileStringAsync _ _ _) as [compiled|err]; simpl.
    + destruct (scopeCSS _ _ _ _ _) as [[c|c m]|err]; simpl;
        try destruct (sass_sourceMap compiled); try destruct m;
        intros [= <- <-]; repeat split.
    + intros [= <- <-]. repeat split.
  - destruct (scopeCSS _ _ _ _ _) as [[c|c m]|err]; simpl;
      try destruct m; intros [= <- <-]; repeat split.
Qed.

(** What [loadStylesheet] has done when it returns: the maps of the
    state are as they were; the entry it returns is the one now under
    the URL; its key is the identity of the file and every dependency
    recorded on it has its current identity. *)
Lemma loadStylesheet_post (b : Build) (w : World) (url : string)
    (text : option string) (type : StyleType) (cache cache' : gmap string CacheEntry)
    (s s' : PluginState) (oe : option CacheEntry) :
  loadStylesheet b w url text type cache s = (Ok (oe, cache'), s') ->
  same_caches s s'
  /\ exists e,
       oe = Some e
       /\ cache' !! url = Some e
       /\ identity w (fileKeyCache s) (fst (splitUrl url)) = Ok (cacheKey e)
       /\ forall d k, (d, k) ∈ recorded e -> identity w (fileKeyCache s) d = Ok k.
Proof.
  unfold loadStylesheet.
  destruct (splitUrl url) as [file query]. simpl fst.
  unfold bind at 1.
  destruct (getCacheKey_run w file s) as (s1 & -> & Hs1).
  destruct (identity w (fileKeyCache s) file) as [key|err] eqn:Hid; [|discriminate].
  unfold bind at 1.
  assert (forall s2, only_stats s1 s2 ->
    loadStylesheet_miss b w url file query text type cache key s2
      = (Ok (oe, cache'), s') ->
    same_caches s s'
    /\ exists e, oe = Some e /\ cache' !! url = Some e
         /\ Ok key = Ok (cacheKey e)
         /\ forall d k, (d, k) ∈ recorded e -> identity w (fileKeyCache s) d = Ok k)
    as Hmiss.
  { intros s2 Hs2. unfold loadStylesheet_miss. unfold bind at 1.
    assert (exists rs s3, match text with
                          | Some text0 => ret text0
                          | None => readFile w file
                          end s2 = (rs, s3) /\ same_caches s2 s3) as (rs & s3 & -> & Hs3).
    { destruct text; unfold readFile, bind, emit, ret, throw; simpl.
      - eexists _, _. split; [reflexivity | apply same_caches_refl].
      - destruct (fs_readFile w file); eexists _, _; (split; [reflexivity|]);
          repeat split. }
    destruct rs as [source''|err]; [|discriminate].
    unfold bind at 1.
    destruct (processStylesheet _ _ s3) as [[processed|err] s4] eqn:Hp; [|discriminate].
    apply processStylesheet_frame in Hp.
    unfold bind at 1.
    destruct (recordDeps_run w (processed_deps processed) [] s4)
      as (r & s5 & -> & Hs5 & Hr).
    destruct r as [deps'|err]; [|discriminate].
    unfold ret. intros [= <- <- <-].
    assert (same_caches s s5) as Hall.
    { destruct Hs1 as (Hs1 & _). destruct Hs2 as (Hs2 & _). destruct Hs5 as (Hs5 & _).
      repeat (eapply same_caches_trans; [eassumption|]). apply same_caches_refl. }
    split; [exact Hall|].
    eexists. split; [reflexivity|]. split; [apply lookup_insert_eq|].
    split; [reflexivity|]. unfold recorded. simpl.
    intros d k Hin.
    assert (fileKeyCache s4 = fileKeyCache s) as Hmemo.
    { destruct Hs1 as ((_ & _ & A & _) & _). destruct Hs2 as ((_ & _ & B & _) & _).
      destruct Hs3 as (_ & _ & C & _). destruct Hp as (_ & _ & D & _). congruence. }
    rewrite <- Hmemo. apply (Hr deps' eq_refl); [|exact Hin].
    intros d' k' Hnil. apply elem_of_nil in Hnil. contradiction. }
  destruct (cache !! url) as [e|] eqn:Hcache.
  - destruct (isValidEntry_run w e key s1) as (r & s2 & -> & Hs2 & Hiff & _).
    destruct r as [[|]|err]; [| |discriminate].
    + unfold ret. intros [= <- <- <-].
      split; [destruct (only_stats_trans _ _ _ Hs1 Hs2) as (H & _); exact H|].
      exists e. split; [reflexivity|]. split; [exact Hcache|].
      destruct Hiff as [Hiff _]. destruct (Hiff eq_refl) as [Hk Hd].
      rewrite (only_stats_memo _ _ Hs1) in Hd.
      split; [congruence | exact Hd].
    + intros Hrun. apply (Hmiss s2 Hs2) in Hrun. exact Hrun.
  - unfold ret at 1. intros Hrun.
    apply (Hmiss s1 (only_stats_refl s1)) in Hrun. exact Hrun.
Qed.

(** An entry under the URL whose key and recorded dependencies are
    current is returned as it is: [loadStylesheet] then only calls
    [fs.stat]. *)
Lemma loadStylesheet_hit (b : Build) (w : World) (url : string)
    (text : option string) (type : StyleType) (cache : gmap string CacheEntry)
    (s : PluginState) (e : CacheEntry) :
  cache !! url = Some e ->
  identity w (fileKeyCache s) (fst (splitUrl url)) = Ok (cacheKey e) ->
  (forall d k, (d, k) ∈ recorded e -> identity w (fileKeyCache s) d = Ok k) ->
  exists s', loadStylesheet b w url text type cache s = (Ok (Some e, cache), s')
             /\ only_stats s s'.
Proof.
  intros Hcache Hkey Hdeps. unfold loadStylesheet.
  destruct (splitUrl url) as [file query]. simpl fst in Hkey.
  unfold bind at 1.
  destruct (getCacheKey_run w file s) as (s1 & -> & Hs1). rewrite Hkey.
  unfold bind at 1. rewrite Hcache.
  destruct (isValidEntry_run w e (cacheKey e) s1) as (r & s2 & -> & Hs2 & Hiff & _).
  assert (r = Ok true) as ->.
  { apply Hiff. split; [reflexivity|]. rewrite (only_stats_memo _ _ Hs1). exact Hdeps. }
  exists s2. split; [reflexivity|]. eapply only_stats_trans; eauto.
Qed.

(** A request for the template itself, when the entry of the path has
    the current key and current dependencies: the entry is served, and
    nothing but [fs.stat] is called. *)
Lemma onLoad_html_main_hit (b : Build) (w : World) (args : OnLoadArgs)
    (s : PluginState) (old : TemplateCacheEntry) :
  truthy (args_suffix args) = false ->
  templateCache s !! args_path args = Some old ->
  identity w (fileKeyCache s) (args_path args) = Ok (cacheKey old) ->
  (forall d k, (d, k) ∈ recorded old -> identity w (fileKeyCache s) d = Ok k) ->
  exists s',
    onLoad_html b w args s
      = (Ok (Some (mkOnLoad (code old) js (warnings old) None)), s')
    /\ only_stats s s'.
Proof.
  intros Hsuffix Hold Hkey Hdeps. unfold onLoad_html. rewrite Hsuffix, Hold.
  unfold bind at 1.
  destruct (getCacheKey_run w (args_path args) s) as (s1 & -> & Hs1). rewrite Hkey.
  unfold bind at 1.
  destruct (isValidEntry_run w old (cacheKey old) s1) as (r & s2 & -> & Hs2 & Hiff & _).
  assert (r = Ok true) as ->.
  { apply Hiff. split; [reflexivity|]. rewrite (only_stats_memo _ _ Hs1). exact Hdeps. }
  exists s2. split; [reflexivity|]. eapply only_stats_trans; eauto.
Qed.

(** A request to the template handler that has returned a result
    returns it again when the file behind it and the dependencies
    recorded on its entry have the metadata they had. *)
Lemma onLoad_html_again (b : Build) (w1 w2 : World)
    (args : OnLoadArgs) (s s1 : PluginState) (out : OnLoadResult) :
  onLoad_html b w1 args s = (Ok (Some out), s1) ->
  unchanged w1 w2 (html_request_file args) (html_backing_entry s1 args) ->
  exists s2, onLoad_html b w2 args s1 = (Ok (Some out), s2) /\ only_stats s1 s2.
Proof.
  intros Hrun [Hfile Hdeps].
  unfold html_request_file, html_backing_entry in *.
  destruct (truthy (args_suffix args)) eqn:Hsuffix.
  - (* a sub-resource *)
    unfold onLoad_html in Hrun |- *. rewrite Hsuffix in Hrun |- *.
    destruct (templateCache s !! args_path args) as [compiled|] eqn:Hcompiled;
      [|discriminate].
    destruct (option_eqb String.eqb
                (query_get "type" (URLSearchParams (args_suffix args)))
                (Some "componentStylesheet")) eqn:Hstyle.
    + cbv zeta in Hrun.
      destruct (has_content
                  (at_index (styles compiled)
                     (if query_has "i" (URLSearchParams (args_suffix args))
                      then Number (default "" (query_get "i"
                                                (URLSearchParams (args_suffix args))))
                      else JSInt (-1)) ≫= res_content)) eqn:Hcontent;
        [|discriminate].
      unfold bind at 1 in Hrun.
      destruct (loadStylesheet _ _ _ _ _ _ s) as [[[oe cache']|err] s1'] eqn:Hload;
        [|discriminate].
      apply loadStylesheet_post in Hload
        as ((Ht & Hsc & Hmemo & Hh) & e & -> & Hcache & Hkey & Hcur).
      unfold bind, set_templateCache, ret in Hrun. simpl in Hrun.
      injection Hrun as <- <-. simpl in Hdeps, Hfile |- *.
      rewrite lookup_insert_eq in Hdeps |- *. simpl in Hdeps.
      cbn [styles scripts entry entry_styleCache]. cbv zeta. rewrite Hcontent.
      destruct (loadStylesheet_hit b w2 (getAbsoluteUrl args)
                  (at_index (styles compiled)
                     (if query_has "i" (URLSearchParams (args_suffix args))
                      then Number (default "" (query_get "i"
                                                (URLSearchParams (args_suffix args))))
                      else JSInt (-1)) ≫= res_content)
                  (if option_eqb String.eqb
                        (at_index (styles compiled)
                           (if query_has "i" (URLSearchParams (args_suffix args))
                            then Number (default "" (query_get "i"
                                            (URLSearchParams (args_suffix args))))
                            else JSInt (-1)) ≫= res_type) (Some "scss")
                   then scss else css)
                  cache'
                  (mkState
                     (<[args_path args :=
                          mkTemplateEntry (entry compiled) (scripts compiled)
                            (styles compiled) cache']> (templateCache s1'))
                     (styleCache s1') (fileKeyCache s1') (hashes s1') (trace s1'))
                  e Hcache) as (s2' & Hhit & Hs2').
      { simpl. rewrite Hmemo, <- Hkey. apply identity_unchanged. exact Hfile. }
      { simpl. intros d k Hin. rewrite Hmemo, <- (Hcur d k Hin).
        apply identity_unchanged. apply (Hdeps e d k); [|exact Hin].
        rewrite Hcache. reflexivity. }
      unfold bind at 1. rewrite Hhit.
      unfold bind, set_templateCache, ret. simpl.
      eexists. split; [reflexivity|].
      destruct Hs2' as ((Ht2 & Hsc2 & Hm2 & Hh2) & evs & Htr & Hevs).
      simpl in *. split.
      * repeat split; simpl; try assumption.
        rewrite Ht2. apply insert_insert_eq.
      * exists evs. split; assumption.
    + destruct (option_eqb String.eqb
                  (query_get "type" (URLSearchParams (args_suffix args)))
                  (Some "componentScript")) eqn:Hscript; [|discriminate].
      cbv zeta in Hrun.
      destruct (has_content _) eqn:Hcontent; [|discriminate].
      unfold ret in Hrun. injection Hrun as <- <-.
      rewrite Hcompiled. cbv zeta. rewrite Hcontent.
      exists s. split; [reflexivity | apply only_stats_refl].
  - (* the template itself *)
    destruct (onLoad_html_main_run _ _ _ _ _ _ Hsuffix Hrun)
      as (key & s1a & Hkey
          & [(old & Hold & Hvalid & Hout)|(s2 & s3 & fresh & Hmiss & Hc & -> & Hout)]).
    + destruct (getCacheKey_run w1 (args_path args) s) as (s' & Hk' & Hs1a).
      rewrite Hkey in Hk'. injection Hk' as Hid <-.
      destruct (isValidEntry_run w1 old key s1a) as (r & s2 & Hv & Hs2 & Hiff & _).
      rewrite Hvalid in Hv. injection Hv as <- <-.
      destruct Hiff as [Hiff _]. destruct (Hiff eq_refl) as [Hk Hcur].
      pose proof (only_stats_trans _ _ _ Hs1a Hs2) as ((Ht & _ & Hmemo & _) & _).
      rewrite Ht, Hold in Hdeps. simpl in Hdeps.
      injection Hout as ->.
      apply onLoad_html_main_hit; [exact Hsuffix | congruence | |].
      * rewrite Hmemo, Hk, Hid. apply identity_unchanged. exact Hfile.
      * intros d k Hin. rewrite Hmemo.
         rewrite (only_stats_memo _ _ Hs1a) in Hcur. rewrite <- (Hcur d k Hin).
         apply identity_unchanged. apply (Hdeps old d k); [reflexivity | exact Hin].
    + destruct (getCacheKey_run w1 (args_path args) s) as (s' & Hk' & Hs1a).
      rewrite Hkey in Hk'. injection Hk' as Hid <-.
      assert (fileKeyCache s2 = fileKeyCache s) as Hmemo2.
      { destruct Hmiss as [[_ ->]|(old & _ & Hvalid)];
          [apply (only_stats_memo _ _ Hs1a)|].
        destruct (isValidEntry_run w1 old key s1a) as (r & s2' & Hv & Hs2 & _).
        rewrite Hvalid in Hv. injection Hv as _ <-.
        rewrite (only_stats_memo _ _ Hs2). apply (only_stats_memo _ _ Hs1a). }
      apply compileTemplate_run in Hc as (_ & _ & Hmemo3 & Hk & Hnodeps & _).
      injection Hout as ->.
      apply onLoad_html_main_hit; [exact Hsuffix | apply lookup_insert_eq | |].
      * simpl. rewrite Hmemo3, Hmemo2, Hk, Hid. apply identity_unchanged. exact Hfile.
      * unfold recorded. rewrite Hnodeps. simpl.
         intros d k Hin. apply elem_of_nil in Hin. contradiction.
Qed.

(** The same for the stylesheet handler. *)
Lemma onLoad_css_again (b : Build) (w1 w2 : World)
    (args : OnLoadArgs) (s s1 : PluginState) (out : OnLoadResult) :
  onLoad_css b w1 args s = (Ok (Some out), s1) ->
  unchanged w1 w2 (css_request_file args) (css_backing_entry s1 args) ->
  exists s2, onLoad_css b w2 args s1 = (Ok (Some out), s2) /\ only_stats s1 s2.
Proof.
  intros Hrun [Hfile Hdeps].
  unfold css_request_file, css_backing_entry in *.
  unfold onLoad_css in Hrun |- *.
  destruct (splitUrl (getAbsoluteUrl args)) as [file query] eqn:Hsplit.
  simpl fst in Hfile.
  unfold bind at 1 in Hrun.
  destruct (loadStylesheet _ _ _ _ _ _ s) as [[[oe cache']|err] s1'] eqn:Hload;
    [|discriminate].
  apply loadStylesheet_post in Hload
    as ((Ht & Hsc & Hmemo & Hh) & e & -> & Hcache & Hkey & Hcur).
  rewrite Hsplit in Hkey. simpl fst in Hkey.
  unfold bind, set_styleCache, ret in Hrun. simpl in Hrun.
  injection Hrun as <- <-. simpl in Hdeps |- *.
  destruct (loadStylesheet_hit b w2 (getAbsoluteUrl args) None
              (if String.eqb (path_extname path file) ".scss" then scss else css)
              cache'
              (mkState (templateCache s1') cache' (fileKeyCache s1') (hashes s1')
                 (trace s1'))
              e Hcache) as (s2' & Hhit & Hs2').
  { rewrite Hsplit. simpl. rewrite Hmemo, <- Hkey.
    apply identity_unchanged. exact Hfile. }
  { simpl. intros d k Hin. rewrite Hmemo, <- (Hcur d k Hin).
    apply identity_unchanged. apply (Hdeps e d k); [exact Hcache | exact Hin]. }
  unfold bind at 1. rewrite Hhit.
  unfold bind, set_styleCache, ret. simpl.
  eexists. split; [reflexivity|].
  destruct Hs2' as ((Ht2 & Hsc2 & Hm2 & Hh2) & evs & Htr & Hevs).
  simpl in *. split.
  - repeat split; simpl; assumption.
  - exists evs. split; assumption.
Qed.







(** The memo is empty in every state the plugin reaches, so a "build
    starting" event between two requests changes nothing. *)
Lemma onStart_empty_memo (s : PluginState) :
  fileKeyCache s = ∅ -> onStart s = (Ok tt, s).
Proof.
  intros H. unfold onStart, set_fileKeyCache. rewrite <- H.
  destruct s. reflexivity.
Qed.

End Idempotence.

(** ** The memo tables in the states the plugin reaches *)

Section Reachable.
Context `{ext : Externals}.

Lemma preserves_bind {A B} (P : PluginState -> Prop) (m : M A) (k : A -> M B) :
  preserves P m -> (forall a, preserves P (k a)) -> preserves P (bind m k).
Proof.
  intros Hm Hk s HP. unfold bind. specialize (Hm s HP).
  destruct (m s) as [[a|e] s1]; simpl in *; [apply Hk; exact Hm | exact Hm].
Qed.

Lemma preserves_ret {A} (P : PluginState -> Prop) (a : A) : preserves P (ret a).
Proof. intros s HP. exact HP. Qed.

Lemma preserves_throw {A} (P : PluginState -> Prop) (e : string) :
  preserves P (@throw A e).
Proof. intros s HP. exact HP. Qed.

Lemma preserves_lift {A} (P : PluginState -> Prop) (r : Result A) :
  preserves P (lift r).
Proof. intros s HP. exact HP. Qed.

Lemma preserves_emit (e : Event) : preserves memos_ok (emit e).
Proof. intros s HP. exact HP. Qed.

Lemma preserves_set_templateCache (c : gmap string TemplateCacheEntry) :
  preserves memos_ok (set_templateCache c).
Proof. intros s HP. exact HP. Qed.

Lemma preserves_set_styleCache (c : gmap string CacheEntry) :
  preserves memos_ok (set_styleCache c).
Proof. intros s HP. exact HP. Qed.

Lemma preserves_hashM (input : string) : preserves memos_ok (hashM input).
Proof.
  intros s [Hmemo Hok]. unfold hashM.
  destruct (safeBase64Hash_memo_ok input _ Hok) as (_ & Hok' & _).
  destruct (safeBase64Hash input (hashes s)) as [h table]. simpl in *.
  split; assumption.
Qed.

Lemma preserves_onStart : preserves memos_ok onStart.
Proof. intros s [_ Hok]. split; [reflexivity | exact Hok]. Qed.

Create HintDb keeps.

#[local] Hint Resolve preserves_ret preserves_throw preserves_lift preserves_emit
  preserves_set_templateCache preserves_set_styleCache preserves_hashM : keeps.

Ltac keeps :=
  repeat first
    [ apply preserves_bind; [|intros ?]
    | progress auto with keeps
    | match goal with
      | |- preserves _ (match ?x with _ => _ end) => destruct x
      | |- preserves _ (if ?x then _ else _) => destruct x
      | |- preserves _ (let '(_, _) := ?x in _) => destruct x
      end ].

Lemma preserves_stat (w : World) (filePath : string) :
  preserves memos_ok (stat w filePath).
Proof. unfold stat. keeps. Qed.

Lemma preserves_readFile (w : World) (filePath : string) :
  preserves memos_ok (readFile w filePath).
Proof. unfold readFile. keeps. Qed.

Lemma preserves_getCacheKey (w : World) (filePath : string) :
  preserves memos_ok (getCacheKey w filePath).
Proof.
  intros s HP. unfold getCacheKey.
  destruct (fileKeyCache s !! filePath); [exact HP|].
  revert s HP. fold (preserves memos_ok
    (let* stats := stat w filePath in ret (ino stats +:+ ":" +:+ mtimeMs stats))).
  apply preserves_bind; [apply preserves_stat | intros; apply preserves_ret].
Qed.

Lemma preserves_isValidEntry_deps (w : World) (entries : list (string * CacheKey)) :
  preserves memos_ok (isValidEntry_deps w entries).
Proof.
  induction entries as [|[k v] rest IH]; simpl; [apply preserves_ret|].
  apply preserves_bind; [apply preserves_getCacheKey|].
  intros current. destruct (negb _); [apply preserves_ret | exact IH].
Qed.

Lemma preserves_isValidEntry (w : World) (e : CacheEntry) (key : CacheKey) :
  preserves memos_ok (isValidEntry w e key).
Proof.
  unfold isValidEntry. destruct (negb _); [apply preserves_ret|].
  destruct (deps e); [apply preserves_isValidEntry_deps | apply preserves_ret].
Qed.

Lemma preserves_recordDeps (w : World) (paths : list string) :
  forall acc, preserves memos_ok (recordDeps w paths acc).
Proof.
  induction paths as [|d rest IH]; intros acc; simpl; [apply preserves_ret|].
  apply preserves_bind; [apply preserves_getCacheKey | intros key; apply IH].
Qed.

Lemma preserves_processStylesheet (text : string) (options : ProcessStylesheetOptions) :
  preserves memos_ok (processStylesheet text options).
Proof.
  intros s HP.
  destruct (processStylesheet text options s) as [r s'] eqn:Hrun.
  apply processStylesheet_frame in Hrun as (_ & _ & Hm & Hh).
  destruct HP as [Hmemo Hok]. split; simpl; [rewrite Hm | rewrite Hh]; assumption.
Qed.

#[local] Hint Resolve preserves_stat preserves_readFile preserves_getCacheKey
  preserves_isValidEntry preserves_recordDeps preserves_processStylesheet : keeps.

Lemma preserves_compileTemplate (w : World) (filePath : string) (key : CacheKey)
    (options : EndorphinPluginOptions) :
  preserves memos_ok (compileTemplate w filePath key options).
Proof. unfold compileTemplate, makeCompileOptions, createScopeSuffix. keeps. Qed.

Lemma preserves_loadStylesheet (b : Build) (w : World) (url : string)
    (text : option string) (type : StyleType) (cache : gmap string CacheEntry) :
  preserves memos_ok (loadStylesheet b w url text type cache).
Proof. unfold loadStylesheet, loadStylesheet_miss. keeps. Qed.

#[local] Hint Resolve preserves_compileTemplate preserves_loadStylesheet : keeps.

Lemma preserves_onLoad_html (b : Build) (w : World) (args : OnLoadArgs) :
  preserves memos_ok (onLoad_html b w args).
Proof.
  intros s HP. unfold onLoad_html.
  destruct (truthy (args_suffix args)).
  - destruct (templateCache s !! args_path args) as [compiled|]; [|exact HP].
    cbv zeta.
    destruct (option_eqb String.eqb _ (Some "componentStylesheet")).
    + destruct (has_content _); [|exact HP].
      revert s HP. apply preserves_bind; [auto with keeps|].
      intros [cacheEntry cache'] s' HP'. revert HP'.
      generalize (templateCache s'). intros templates. revert s'.
      apply preserves_bind; [auto with keeps|]. intros ?. keeps.
    + destruct (option_eqb String.eqb _ (Some "componentScript")); [|exact HP].
      destruct (has_content _); [exact HP|].
      revert s HP. keeps.
  - revert HP. generalize (templateCache s !! args_path args). intros compiledTemplate.
    revert s.
    apply preserves_bind; [auto with keeps | intros key].
    apply preserves_bind; [destruct compiledTemplate; auto with keeps | intros valid].
    apply preserves_bind; [|intros compiled; apply preserves_ret].
    destruct compiledTemplate as [old|]; [destruct valid|]; try apply preserves_ret;
      (apply preserves_bind; [auto with keeps|]; intros fresh s' HP'; revert HP';
       generalize (templateCache s'); intros templates; revert s';
       apply preserves_bind; [auto with keeps | intros ?; apply preserves_ret]).
Qed.

Lemma preserves_onLoad_css (b : Build) (w : World) (args : OnLoadArgs) :
  preserves memos_ok (onLoad_css b w args).
Proof.
  intros s HP. unfold onLoad_css.
  destruct (splitUrl (getAbsoluteUrl args)) as [file query].
  revert HP. generalize (styleCache s). intros cache. revert s.
  apply preserves_bind; [auto with keeps|].
  intros [cacheEntry cache']. keeps.
Qed.

(** In every state the plugin reaches, the identity memo is empty (it is
    never written) and the hash table holds only hashes. *)
Lemma reachable_memos_ok (s : PluginState) : reachable s -> memos_ok s.
Proof.
  induction 1 as [|s _ IH|b w args s _ IH|b w args s _ IH].
  - split; [reflexivity | apply memo_ok_empty].
  - apply preserves_onStart, IH.
  - apply preserves_onLoad_html, IH.
  - apply preserves_onLoad_css, IH.
Qed.

(** So each call of [getCacheKey] the plugin makes runs [fs.stat]. *)
Lemma reachable_getCacheKey_stats (w : World) (filePath : string) (s : PluginState) :
  reachable s ->
  trace (snd (getCacheKey w filePath s)) = (trace s ++ [EvStat filePath])%list.
Proof.
  intros [Hmemo _]%reachable_memos_ok. unfold getCacheKey. rewrite Hmemo, lookup_empty.
  unfold bind, stat, emit, ret, throw. simpl.
  destruct (fs_stat w filePath); reflexivity.
Qed.

(** And a "build starting" event between two requests changes nothing. *)
Lemma reachable_onStart_noop (s : PluginState) :
  reachable s -> onStart s = (Ok tt, s).
Proof. intros [Hmemo _]%reachable_memos_ok. apply onStart_empty_memo, Hmemo. Qed.


(** X17. In every state the plugin reaches, a request that has returned
    a result returns it again in the next pass, after the "build
    starting" event, when the files have the metadata they had; the maps
    are left as they are and nothing but [fs.stat] is called. *)
Lemma reload_in_next_pass (b : Build) (w1 w2 : World) (args : OnLoadArgs)
    (s s1 : PluginState) (out : OnLoadResult) :
  reachable s ->
  (onLoad_html b w1 args s = (Ok (Some out), s1) ->
   unchanged w1 w2 (html_request_file args) (html_backing_entry s1 args) ->
   exists s2, (onStart;;; onLoad_html b w2 args) s1 = (Ok (Some out), s2)
              /\ only_stats s1 s2)
  /\ (onLoad_css b w1 args s = (Ok (Some out), s1) ->
      unchanged w1 w2 (css_request_file args) (css_backing_entry s1 args) ->
      exists s2, (onStart;;; onLoad_css b w2 args) s1 = (Ok (Some out), s2)
                 /\ only_stats s1 s2).
Proof.
  intros Hs. split; intros Hrun Hunchanged; unfold bind.
  - assert (reachable s1) as Hs1.
    { replace s1 with (snd (onLoad_html b w1 args s)) by (rewrite Hrun; reflexivity).
      apply reachable_html, Hs. }
    rewrite (reachable_onStart_noop _ Hs1). eapply onLoad_html_again; eauto.
  - assert (reachable s1) as Hs1.
    { replace s1 with (snd (onLoad_css b w1 args s)) by (rewrite Hrun; reflexivity).
      apply reachable_css, Hs. }
    rewrite (reachable_onStart_noop _ Hs1). eapply onLoad_css_again; eauto.
Qed.

End Reachable.

(** ** More on the line scan *)

Lemma Forall_snoc {A} (P : A -> Prop) (l : list A) (x : A) :
  Forall P l -> P x -> Forall P (l ++ [x]).
Proof. intros Hl Hx. apply Forall_app. split; [exact Hl | constructor; [exact Hx | constructor]]. Qed.

Lemma is_break_split (o : option ascii) :
  is_break o = false -> is_char CR o = false /\ is_char LF o = false.
Proof. unfold is_break. apply orb_false_iff. Qed.

Lemma is_char_CR_not_LF (o : option ascii) :
  is_char CR o = true -> is_char LF o = false.
Proof.
  destruct o as [c|]; simpl; [|discriminate].
  intros H%Ascii.eqb_eq. subst c. reflexivity.
Qed.

Lemma is_char_LF_not_CR (o : option ascii) :
  is_char LF o = true -> is_char CR o = false.
Proof.
  destruct o as [c|]; simpl; [|discriminate].
  intros H%Ascii.eqb_eq. subst c. reflexivity.
Qed.

(** The loop keeps: the spans pushed so far hold one line each, and the
    characters from [start] up to [end] are no line breaks. *)
Lemma getLines_loop_one_line (text : string) (fuel : nat) :
  forall (start end_ : nat) (result r : list Line),
    getLines_loop fuel text start end_ result = Some r ->
    start <= end_ ->
    (forall p, start <= p < end_ -> is_break (charAt text p) = false) ->
    Forall (one_line text) result ->
    Forall (one_line text) r.
Proof.
  assert (forall start end_ result,
            String.length text <= end_ -> start <= end_ ->
            (forall p, start <= p < end_ -> is_break (charAt text p) = false) ->
            Forall (one_line text) result ->
            Forall (one_line text) (getLines_finish start end_ result)) as Hfinish.
  { intros start end_ result Hlen Hse Hopen Hres. unfold getLines_finish.
    destruct (Nat.eqb_spec start end_); [exact Hres|].
    apply Forall_snoc; [exact Hres|]. unfold one_line. cbn [line_start line_end].
    split; [intros p Hp1 Hp2; apply is_break_split, Hopen; lia|].
    split.
    - intros p Hp1 Hp2 Hcr.
      destruct (is_break_split _ (Hopen p ltac:(lia))) as [Hno _]. congruence.
    - split; [lia|]. intros Hcr.
      destruct (is_break_split _ (Hopen (end_ - 1) ltac:(lia))) as [Hno _]. congruence. }
  induction fuel as [|fuel IH]; intros start end_ result r; simpl.
  - destruct (Nat.ltb_spec end_ (String.length text)); simpl; [discriminate|].
    intros [= <-]. apply Hfinish. lia.
  - destruct (Nat.ltb_spec end_ (String.length text)) as [Hlt|Hge]; simpl;
      [|intros [= <-]; apply Hfinish; lia].
    destruct (is_char CR (charAt text end_) || is_char LF (charAt text end_)) eqn:Hbreak.
    + destruct (is_char CR (charAt text end_)) eqn:Hcr; simpl.
      * destruct (is_char LF (charAt text (S end_))) eqn:Hlf; simpl.
        -- (* CR LF *)
           intros Hrun Hse Hopen Hres. apply (IH _ _ _ _ Hrun); [lia | intros; lia|].
           apply Forall_snoc; [exact Hres|]. unfold one_line. cbn [line_start line_end].
           split.
           { intros p Hp1 Hp2. destruct (Nat.eq_dec p end_) as [->|Hne].
             - apply is_char_CR_not_LF, Hcr.
             - apply is_break_split, Hopen. lia. }
           split.
           { intros p Hp1 Hp2 Hpcr. destruct (Nat.eq_dec p end_) as [->|Hne].
             - split; [reflexivity | exact Hlf].
             - destruct (is_break_split _ (Hopen p ltac:(lia))). congruence. }
           split.
           { intros _. replace (S (S end_) - 1) with (S end_) by lia.
             unfold is_break. rewrite Hlf. apply orb_true_r. }
           { replace (S (S end_) - 1) with (S end_) by lia.
             intros Hcr'. apply is_char_LF_not_CR in Hlf. congruence. }
        -- (* a lone CR *)
           intros Hrun Hse Hopen Hres. apply (IH _ _ _ _ Hrun); [lia | intros; lia|].
           apply Forall_snoc; [exact Hres|]. unfold one_line. cbn [line_start line_end].
           split; [intros p Hp1 Hp2; apply is_break_split, Hopen; lia|].
           split.
           { intros p Hp1 Hp2 Hpcr.
             destruct (is_break_split _ (Hopen p ltac:(lia))). congruence. }
           split.
           { intros _. replace (S end_ - 1) with end_ by lia.
             unfold is_break. rewrite Hcr. reflexivity. }
           { replace (S end_ - 1) with end_ by lia. intros _. exact Hlf. }
      * (* LF *)
        simpl in Hbreak.
        intros Hrun Hse Hopen Hres. apply (IH _ _ _ _ Hrun); [lia | intros; lia|].
        apply Forall_snoc; [exact Hres|]. unfold one_line. cbn [line_start line_end].
        split; [intros p Hp1 Hp2; apply is_break_split, Hopen; lia|].
        split.
        { intros p Hp1 Hp2 Hpcr.
          destruct (is_break_split _ (Hopen p ltac:(lia))). congruence. }
        split.
        { intros _. replace (S end_ - 1) with end_ by lia.
          unfold is_break. rewrite Hbreak. apply orb_true_r. }
        { replace (S end_ - 1) with end_ by lia. congruence. }
    + intros Hrun Hse Hopen Hres. apply (IH _ _ _ _ Hrun); [lia| |exact Hres].
      intros p Hp. destruct (Nat.eq_dec p end_) as [->|Hne].
      * exact Hbreak.
      * apply Hopen. lia.
Qed.

(** X1. Every span of [getLines] holds one line: a line feed, or a
    carriage return that is not the first half of the closing CR LF, never
    stands before the last character of a span; a span that does not end
    the text ends with a line break; and a CR LF pair is never cut in two
    by the end of a span. *)
Theorem getLines_spans_are_lines (text : string) :
  Forall (one_line text) (getLines text).
Proof.
  apply (getLines_loop_one_line text (String.length text) 0 0 []).
  - apply getLines_loop_total.
  - lia.
  - intros p Hp. lia.
  - constructor.
Qed.

(** X2. A text that is not empty and has no line break is one span, from
    0 to its length. *)
Theorem getLines_without_break (text : string) :
  text <> "" ->
  (forall p, p < String.length text -> is_break (charAt text p) = false) ->
  getLines text = [mkLine 0 (String.length text)].
Proof.
  intros Hne Hno.
  pose proof (getLines_chain text) as Hchain.
  pose proof (getLines_loop_one_line text (String.length text) 0 0 [] _
                (getLines_loop_total text) (Nat.le_refl 0)
                ltac:(intros; lia) ltac:(constructor)) as Hlines.
  destruct (getLines text) as [|x rest].
  - simpl in Hchain. destruct text; [contradiction | discriminate].
  - simpl in Hchain. destruct Hchain as (Hs & Hlt & Hrest).
    apply Forall_cons in Hlines as [(_ & _ & Hend & _) _].
    pose proof (chain_le _ _ _ Hrest) as Hle.
    assert (line_end x = String.length text) as Hx.
    { destruct (Nat.eq_dec (line_end x) (String.length text)) as [|Hneq]; [assumption|].
      rewrite Hno in Hend by lia. specialize (Hend ltac:(lia)). discriminate. }
    destruct rest as [|y rest].
    + destruct x as [a b]. simpl in *. congruence.
    + simpl in Hrest. destruct Hrest as (Hy & Hylt & Hrest').
      apply chain_le in Hrest'. lia.
Qed.

(** ** More on the fingerprint *)

Lemma string_app_cons (x : ascii) (a b : string) :
  String x a +:+ b = String x (a +:+ b).
Proof. reflexivity. Qed.

Lemma string_app_nil (b : string) : "" +:+ b = b.
Proof. reflexivity. Qed.

Lemma string_app_assoc (a b c : string) : (a +:+ b) +:+ c = a +:+ (b +:+ c).
Proof.
  induction a as [|x a IH]; [reflexivity|].
  rewrite !string_app_cons, IH. reflexivity.
Qed.

Lemma toSafe_app (a b : string) : toSafe (a +:+ b) = toSafe a +:+ toSafe b.
Proof.
  induction a as [|x a IH]; [reflexivity|].
  rewrite string_app_cons. simpl. rewrite IH.
  destruct (replacements x); [|reflexivity].
  symmetry. apply string_app_assoc.
Qed.

Lemma replacements_unsafe (x : ascii) :
  match replacements x with
  | Some r => is_unsafe_char x = true /\ toSafe r = r
              /\ forallb (fun c => negb (is_unsafe_char c)) (list_ascii_of_string r) = true
              /\ String.length r <= 1
  | None => is_unsafe_char x = false
  end.
Proof.
  unfold replacements, is_unsafe_char.
  destruct (Ascii.eqb x "+"); [repeat split; simpl; lia|].
  destruct (Ascii.eqb x "/"); [repeat split; simpl; lia|].
  destruct (Ascii.eqb x "="); [repeat split; simpl; lia|].
  reflexivity.
Qed.

Lemma list_ascii_of_string_app (a b : string) :
  list_ascii_of_string (a +:+ b) = (list_ascii_of_string a ++ list_ascii_of_string b)%list.
Proof.
  induction a as [|x a IH]; [reflexivity|].
  rewrite string_app_cons. simpl. rewrite IH. reflexivity.
Qed.

Lemma length_string_app (a b : string) :
  String.length (a +:+ b) = String.length a + String.length b.
Proof.
  induction a as [|x a IH]; [reflexivity|].
  rewrite string_app_cons. simpl. rewrite IH. reflexivity.
Qed.

(** X3. [toSafe] leaves none of [+], [/] and [=] in its result; applying
    it again changes nothing; the result is never longer than the input;
    and a text without these three characters is returned as it is. *)
Theorem toSafe_removes_unsafe (base64 : string) :
  forallb (fun c => negb (is_unsafe_char c)) (list_ascii_of_string (toSafe base64)) = true
  /\ toSafe (toSafe base64) = toSafe base64
  /\ String.length (toSafe base64) <= String.length base64
  /\ (forallb (fun c => negb (is_unsafe_char c)) (list_ascii_of_string base64) = true ->
      toSafe base64 = base64).
Proof.
  induction base64 as [|x rest (IH1 & IH2 & IH3 & IH4)]; simpl.
  - repeat split; auto.
  - pose proof (replacements_unsafe x) as Hx.
    destruct (replacements x) as [r|].
    + destruct Hx as (Hunsafe & Hr & Hclean & Hlen).
      split; [rewrite list_ascii_of_string_app, forallb_app, Hclean, IH1; reflexivity|].
      split; [rewrite toSafe_app, Hr, IH2; reflexivity|].
      split; [rewrite length_string_app; lia|].
      rewrite Hunsafe. discriminate.
    + simpl. rewrite Hx. simpl.
      split; [exact IH1|].
      unfold is_unsafe_char in Hx. unfold replacements.
      apply orb_false_iff in Hx as [Hx H3]. apply orb_false_iff in Hx as [H1 H2].
      rewrite H1, H2, H3.
      split; [rewrite IH2; reflexivity|].
      split; [lia|].
      intros Hrest. rewrite (IH4 Hrest). reflexivity.
Qed.

(** X4. On any table, [safeBase64Hash] returns a token that is not
    empty, leaves that token stored under its input, and leaves the
    entries of all other inputs as they were. *)
Theorem safeBase64Hash_touches_one_entry (input : string) (table : gmap string string) :
  truthy (fst (safeBase64Hash input table)) = true
  /\ snd (safeBase64Hash input table) !! input = Some (fst (safeBase64Hash input table))
  /\ forall other, other <> input ->
       snd (safeBase64Hash input table) !! other = table !! other.
Proof.
  unfold safeBase64Hash.
  destruct (table !! input) as [h|] eqn:Hh; [destruct (truthy h) eqn:Ht|]; simpl.
  - auto.
  - split; [apply computeHash_truthy|]. split; [apply lookup_insert_eq|].
    intros other Hne. apply lookup_insert_ne. congruence.
  - split; [apply computeHash_truthy|]. split; [apply lookup_insert_eq|].
    intros other Hne. apply lookup_insert_ne. congruence.
Qed.

(** ** Paths and URLs *)

Lemma prefix_app_inv (p s : string) :
  String.prefix p s = true -> exists rest, s = p +:+ rest.
Proof.
  revert s. induction p as [|a p IH]; intros s.
  - intros _. exists s. reflexivity.
  - destruct s as [|b s]; simpl; [intros H; discriminate H|].
    destruct (ascii_dec a b) as [->|]; [|intros H; discriminate H].
    intros H. destruct (IH _ H) as (rest & ->). exists rest. reflexivity.
Qed.

Lemma substring_all (s : string) : String.substring 0 (String.length s) s = s.
Proof. induction s as [|a s IH]; simpl; [reflexivity | rewrite IH; reflexivity]. Qed.

Lemma slice_from_app (p rest : string) :
  slice_from (p +:+ rest) (String.length p) = rest.
Proof.
  unfold slice_from. rewrite length_string_app.
  replace (String.length p + String.length rest - String.length p)
    with (String.length rest) by lia.
  induction p as [|a p IH]; [apply substring_all|].
  rewrite string_app_cons. simpl. exact IH.
Qed.

(** X5. [stripRoot] cuts the root off a file name that starts with the
    root and a slash: what is left starts with that slash, and the root
    followed by it is the file name again.  Any other file name is
    returned as it is. *)
Theorem stripRoot_splits (normalizedFilename normalizedRoot : string) :
  (startsWith normalizedFilename (normalizedRoot +:+ "/") = true ->
   normalizedRoot +:+ stripRoot normalizedFilename normalizedRoot = normalizedFilename
   /\ exists rest, stripRoot normalizedFilename normalizedRoot = String "/" rest)
  /\ (startsWith normalizedFilename (normalizedRoot +:+ "/") = false ->
      stripRoot normalizedFilename normalizedRoot = normalizedFilename).
Proof.
  unfold stripRoot. split; intros H; rewrite H; [|reflexivity].
  unfold startsWith in H. apply prefix_app_inv in H as (rest & ->).
  rewrite string_app_assoc. rewrite slice_from_app. simpl.
  split; [reflexivity | eexists; reflexivity].
Qed.

Section UrlFacts.
Context `{ext : Externals}.

Lemma split_on_cons (sep c : ascii) (s : string) :
  Posix.split_on sep (String c s)
  = if Ascii.eqb c sep then "" :: Posix.split_on sep s
    else match Posix.split_on sep s with
         | piece :: pieces => String c piece :: pieces
         | [] => [String c ""]
         end.
Proof. reflexivity. Qed.

(** The pieces of [split_on]: the first one has no separator, and the
    text is the first piece, or the first piece, a separator and the
    text that gives the other pieces. *)
Lemma split_on_head (sep : ascii) (s : string) :
  exists piece pieces,
    Posix.split_on sep s = piece :: pieces
    /\ no_char sep piece = true
    /\ (pieces = [] /\ s = piece
        \/ exists rest, s = piece +:+ String sep rest
                        /\ pieces = Posix.split_on sep rest).
Proof.
  induction s as [|c s (piece & pieces & Hs & Hno & Hrest)].
  - exists "", []. split; [reflexivity|]. split; [reflexivity|]. left. auto.
  - rewrite split_on_cons. destruct (Ascii.eqb_spec c sep) as [->|Hne].
    + exists "", (Posix.split_on sep s). split; [reflexivity|].
      split; [reflexivity|]. right. exists s. auto.
    + rewrite Hs. exists (String c piece), pieces. split; [reflexivity|].
      split.
      * unfold no_char in *. simpl. rewrite Hno.
        destruct (Ascii.eqb_spec c sep); [contradiction | reflexivity].
      * destruct Hrest as [[-> ->]|(rest & -> & ->)]; [left; auto|].
        right. exists rest. auto.
Qed.

Lemma split_on_no_sep (sep : ascii) (s : string) :
  no_char sep s = true -> Posix.split_on sep s = [s].
Proof.
  induction s as [|c s IH]; [reflexivity|].
  rewrite split_on_cons. unfold no_char. simpl. intros [Hc Hs]%andb_true_iff.
  apply negb_true_iff in Hc. rewrite Hc.
  rewrite (IH Hs). reflexivity.
Qed.

Lemma split_on_app_sep (sep : ascii) (a b : string) :
  no_char sep a = true ->
  Posix.split_on sep (a +:+ String sep b) = a :: Posix.split_on sep b.
Proof.
  induction a as [|c a IH].
  - intros _. rewrite string_app_nil, split_on_cons, Ascii.eqb_refl. reflexivity.
  - rewrite string_app_cons, split_on_cons. unfold no_char. simpl.
    intros [Hc Ha]%andb_true_iff. apply negb_true_iff in Hc. rewrite Hc.
    rewrite (IH Ha). reflexivity.
Qed.

Lemma getAbsoluteUrl_app (args : OnLoadArgs) :
  getAbsoluteUrl args = args_path args +:+ args_suffix args.
Proof.
  unfold getAbsoluteUrl. destruct (args_suffix args); reflexivity.
Qed.

Lemma string_app_empty (a : string) : a +:+ "" = a.
Proof.
  induction a as [|c a IH]; [reflexivity|].
  rewrite string_app_cons, IH. reflexivity.
Qed.

(** X6. The file [splitUrl] returns has no question mark, and the URL is
    that file alone or that file followed by a question mark and more;
    a URL without a question mark is its own file, with the query of the
    empty text. *)
Theorem splitUrl_file (url : string) :
  no_char "?" (fst (splitUrl url)) = true
  /\ (url = fst (splitUrl url)
      \/ exists rest, url = fst (splitUrl url) +:+ String "?" rest)
  /\ (no_char "?" url = true -> splitUrl url = (url, URLSearchParams "")).
Proof.
  unfold splitUrl.
  destruct (split_on_head "?" url) as (piece & pieces & Hs & Hno & Hrest).
  split; [|split].
  - rewrite Hs. destruct pieces; exact Hno.
  - rewrite Hs. destruct Hrest as [[-> ->]|(rest & -> & _)].
    + left. reflexivity.
    + right. exists rest. destruct pieces; reflexivity.
  - intros Hurl. rewrite (split_on_no_sep _ _ Hurl). reflexivity.
Qed.

(** X7. For a path without a question mark, [splitUrl] undoes
    [getAbsoluteUrl]: with an empty suffix the file is the path; with a
    suffix that is a question mark and a query without another one, the
    file is the path and the query is read from the suffix itself.  Of a
    suffix with a second question mark, only the text between the two
    is read as the query. *)
Theorem splitUrl_getAbsoluteUrl (args : OnLoadArgs) :
  no_char "?" (args_path args) = true ->
  (args_suffix args = "" ->
   splitUrl (getAbsoluteUrl args) = (args_path args, URLSearchParams ""))
  /\ (forall query, args_suffix args = String "?" query ->
        no_char "?" query = true -> truthy query = true ->
        splitUrl (getAbsoluteUrl args)
        = (args_path args, URLSearchParams (args_suffix args)))
  /\ (forall query more, args_suffix args = String "?" (query +:+ String "?" more) ->
        no_char "?" query = true -> truthy query = true ->
        splitUrl (getAbsoluteUrl args)
        = (args_path args, URLSearchParams (String "?" query))).
Proof.
  intros Hpath. rewrite getAbsoluteUrl_app. split; [|split].
  - intros ->. rewrite string_app_empty. unfold splitUrl. rewrite (split_on_no_sep _ _ Hpath). reflexivity.
  - intros query -> Hquery Htruthy. unfold splitUrl.
    rewrite (split_on_app_sep _ _ _ Hpath), (split_on_no_sep _ _ Hquery), Htruthy.
    reflexivity.
  - intros query more -> Hquery Htruthy. unfold splitUrl.
    rewrite (split_on_app_sep _ _ _ Hpath), (split_on_app_sep _ _ _ Hquery), Htruthy.
    reflexivity.
Qed.

Lemma token_separator (a a' b b' : string) :
  no_char ":" a = true -> no_char ":" a' = true ->
  a +:+ ":" +:+ b = a' +:+ ":" +:+ b' -> a = a' /\ b = b'.
Proof.
  revert a'. induction a as [|c a IH]; intros [|c' a'] Ha Ha' H;
    repeat (rewrite string_app_cons in H || rewrite string_app_nil in H);
    unfold no_char in Ha, Ha'; simpl in Ha, Ha'.
  - injection H as ->. auto.
  - injection H as <- _. apply andb_true_iff in Ha' as [Hc _]. discriminate Hc.
  - injection H as -> _. apply andb_true_iff in Ha as [Hc _]. discriminate Hc.
  - injection H as -> H.
    apply andb_true_iff in Ha as [_ Ha]. apply andb_true_iff in Ha' as [_ Ha'].
    destruct (IH a' Ha Ha') as [-> ->]; [|auto].
    repeat (rewrite string_app_cons || rewrite string_app_nil). exact H.
Qed.

(** X8. With an empty memo, the keys [getCacheKey] makes for two files
    that exist are equal exactly when the two files have the same inode
    number and the same modification time (the printed inode numbers
    holding no colon). *)
Theorem getCacheKey_separates (w1 w2 : World) (p1 p2 : string) (s : PluginState)
    (st1 st2 : Stats) :
  fileKeyCache s = ∅ ->
  fs_stat w1 p1 = Some st1 -> fs_stat w2 p2 = Some st2 ->
  no_char ":" (ino st1) = true -> no_char ":" (ino st2) = true ->
  (fst (getCacheKey w1 p1 s) = fst (getCacheKey w2 p2 s) <-> st1 = st2).
Proof.
  intros Hmemo H1 H2 Hino1 Hino2.
  rewrite !getCacheKey_fst. unfold identity.
  rewrite Hmemo, !lookup_empty, H1, H2. split.
  - intros [= H]. apply token_separator in H as [Hi Hm]; try assumption.
    destruct st1, st2. simpl in *. congruence.
  - intros ->. reflexivity.
Qed.

End UrlFacts.

(** ** What the handlers write and call *)

Section Frames.
Context `{ext : Externals}.

Lemma wrote_nothing_refl (allowed : Event -> bool) (s : PluginState) :
  wrote_nothing allowed s s.
Proof.
  repeat split. exists []. split; [symmetry; apply app_nil_r | reflexivity].
Qed.

Lemma wrote_nothing_trans (allowed : Event -> bool) (s1 s2 s3 : PluginState) :
  wrote_nothing allowed s1 s2 -> wrote_nothing allowed s2 s3 ->
  wrote_nothing allowed s1 s3.
Proof.
  intros (A1 & A2 & A3 & evs1 & T1 & F1) (B1 & B2 & B3 & evs2 & T2 & F2).
  split; [congruence|]. split; [congruence|]. split; [congruence|].
  exists (evs1 ++ evs2)%list. split.
  - rewrite T2, T1. symmetry. apply app_assoc.
  - rewrite forallb_app, F1, F2. reflexivity.
Qed.

Lemma wrote_nothing_mono (a1 a2 : Event -> bool) (s s' : PluginState) :
  (forall e, a1 e = true -> a2 e = true) ->
  wrote_nothing a1 s s' -> wrote_nothing a2 s s'.
Proof.
  intros Hsub (A1 & A2 & A3 & evs & T & F). repeat (split; [assumption|]).
  exists evs. split; [exact T|].
  apply forallb_forall. intros e He. apply Hsub.
  rewrite forallb_forall in F. apply F, He.
Qed.

Lemma quiet_mono {A} (a1 a2 : Event -> bool) (m : M A) :
  (forall e, a1 e = true -> a2 e = true) -> quiet a1 m -> quiet a2 m.
Proof. intros Hsub Hm s. eapply wrote_nothing_mono; eauto. Qed.

Lemma quiet_run {A} (allowed : Event -> bool) (m : M A) (s s' : PluginState)
    (r : Result A) :
  quiet allowed m -> m s = (r, s') -> wrote_nothing allowed s s'.
Proof. intros Hm Hrun. specialize (Hm s). rewrite Hrun in Hm. exact Hm. Qed.

Lemma quiet_bind {A B} (allowed : Event -> bool) (m : M A) (k : A -> M B) :
  quiet allowed m -> (forall a, quiet allowed (k a)) -> quiet allowed (bind m k).
Proof.
  intros Hm Hk s. unfold bind. specialize (Hm s).
  destruct (m s) as [[a|e] s1]; simpl in *; [|exact Hm].
  eapply wrote_nothing_trans; [exact Hm | apply Hk].
Qed.

Lemma quiet_ret {A} (allowed : Event -> bool) (a : A) : quiet allowed (ret a).
Proof. intros s. apply wrote_nothing_refl. Qed.

Lemma quiet_throw {A} (allowed : Event -> bool) (e : string) :
  quiet allowed (@throw A e).
Proof. intros s. apply wrote_nothing_refl. Qed.

Lemma quiet_lift {A} (allowed : Event -> bool) (r : Result A) :
  quiet allowed (lift r).
Proof. intros s. apply wrote_nothing_refl. Qed.

Lemma quiet_emit (allowed : Event -> bool) (e : Event) :
  allowed e = true -> quiet allowed (emit e).
Proof.
  intros He s. repeat split. exists [e]. split; [reflexivity|].
  simpl. rewrite He. reflexivity.
Qed.

Lemma quiet_hashM (allowed : Event -> bool) (input : string) :
  quiet allowed (hashM input).
Proof.
  intros s. unfold hashM. destruct (safeBase64Hash _ _) as [h table]. simpl.
  repeat split. exists []. split; [symmetry; apply app_nil_r | reflexivity].
Qed.

Create HintDb quiet.

#[local] Hint Resolve quiet_ret quiet_throw quiet_lift quiet_hashM : quiet.
#[local] Hint Extern 1 (quiet _ (emit _)) => apply quiet_emit; reflexivity : quiet.

Ltac quiet :=
  repeat first
    [ apply quiet_bind; [|intros ?]
    | progress auto with quiet
    | match goal with
      | |- quiet _ (match ?x with _ => _ end) => destruct x
      | |- quiet _ (if ?x then _ else _) => destruct x
      | |- quiet _ (let '(_, _) := ?x in _) => destruct x
      end ].

Lemma quiet_stat (w : World) (filePath : string) : quiet stat_event (stat w filePath).
Proof. unfold stat. quiet. Qed.

Lemma quiet_readFile (w : World) (filePath : string) :
  quiet file_event (readFile w filePath).
Proof. unfold readFile. quiet. Qed.

Lemma quiet_getCacheKey (w : World) (filePath : string) :
  quiet stat_event (getCacheKey w filePath).
Proof.
  intros s. unfold getCacheKey.
  destruct (fileKeyCache s !! filePath); [apply wrote_nothing_refl|].
  revert s. fold (quiet stat_event
    (let* stats := stat w filePath in ret (ino stats +:+ ":" +:+ mtimeMs stats))).
  apply quiet_bind; [apply quiet_stat | intros; apply quiet_ret].
Qed.

Lemma quiet_isValidEntry_deps (w : World) (entries : list (string * CacheKey)) :
  quiet stat_event (isValidEntry_deps w entries).
Proof.
  induction entries as [|[k v] rest IH]; simpl; [apply quiet_ret|].
  apply quiet_bind; [apply quiet_getCacheKey|].
  intros current. destruct (negb _); [apply quiet_ret | exact IH].
Qed.

Lemma quiet_isValidEntry (w : World) (e : CacheEntry) (key : CacheKey) :
  quiet stat_event (isValidEntry w e key).
Proof.
  unfold isValidEntry. destruct (negb _); [apply quiet_ret|].
  destruct (deps e); [apply quiet_isValidEntry_deps | apply quiet_ret].
Qed.

Lemma quiet_recordDeps (w : World) (paths : list string) :
  forall acc, quiet stat_event (recordDeps w paths acc).
Proof.
  induction paths as [|d rest IH]; intros acc; simpl; [apply quiet_ret|].
  apply quiet_bind; [apply quiet_getCacheKey | intros key; apply IH].
Qed.

Lemma stat_event_template (e : Event) : stat_event e = true -> template_event e = true.
Proof. destruct e; simpl; auto. Qed.

Lemma stat_event_style (e : Event) : stat_event e = true -> style_event e = true.
Proof. destruct e; simpl; auto. Qed.

Lemma stat_event_inline (e : Event) :
  stat_event e = true -> inline_style_event e = true.
Proof. destruct e; simpl; auto. Qed.

Lemma file_event_template (e : Event) : file_event e = true -> template_event e = true.
Proof. destruct e; simpl; auto. Qed.

Lemma file_event_style (e : Event) : file_event e = true -> style_event e = true.
Proof. destruct e; simpl; auto. Qed.

Lemma inline_event_style (e : Event) :
  inline_style_event e = true -> style_event e = true.
Proof. destruct e; simpl; auto. Qed.

Lemma inline_event_sub_resource (e : Event) :
  inline_style_event e = true -> sub_resource_event e = true.
Proof. destruct e; simpl; auto. Qed.

#[local] Hint Extern 1 (quiet template_event (readFile _ _)) =>
  apply (quiet_mono file_event); [apply file_event_template | apply quiet_readFile] : quiet.
#[local] Hint Extern 1 (quiet style_event (readFile _ _)) =>
  apply (quiet_mono file_event); [apply file_event_style | apply quiet_readFile] : quiet.
#[local] Hint Extern 1 (quiet style_event (getCacheKey _ _)) =>
  apply (quiet_mono stat_event); [apply stat_event_style | apply quiet_getCacheKey] : quiet.
#[local] Hint Extern 1 (quiet style_event (isValidEntry _ _ _)) =>
  apply (quiet_mono stat_event); [apply stat_event_style | apply quiet_isValidEntry] : quiet.
#[local] Hint Extern 1 (quiet style_event (recordDeps _ _ _)) =>
  apply (quiet_mono stat_event); [apply stat_event_style | apply quiet_recordDeps] : quiet.
#[local] Hint Extern 1 (quiet inline_style_event (getCacheKey _ _)) =>
  apply (quiet_mono stat_event); [apply stat_event_inline | apply quiet_getCacheKey] : quiet.
#[local] Hint Extern 1 (quiet inline_style_event (isValidEntry _ _ _)) =>
  apply (quiet_mono stat_event); [apply stat_event_inline | apply quiet_isValidEntry] : quiet.
#[local] Hint Extern 1 (quiet inline_style_event (recordDeps _ _ _)) =>
  apply (quiet_mono stat_event); [apply stat_event_inline | apply quiet_recordDeps] : quiet.

Lemma quiet_processStylesheet_inline (text : string) (options : ProcessStylesheetOptions) :
  quiet inline_style_event (processStylesheet text options).
Proof. unfold processStylesheet. quiet. Qed.

Lemma quiet_processStylesheet (text : string) (options : ProcessStylesheetOptions) :
  quiet style_event (processStylesheet text options).
Proof.
  apply (quiet_mono inline_style_event);
    [apply inline_event_style | apply quiet_processStylesheet_inline].
Qed.

#[local] Hint Resolve quiet_processStylesheet quiet_processStylesheet_inline : quiet.

Lemma quiet_compileTemplate (w : World) (filePath : string) (key : CacheKey)
    (options : EndorphinPluginOptions) :
  quiet template_event (compileTemplate w filePath key options).
Proof. unfold compileTemplate, makeCompileOptions, createScopeSuffix. quiet. Qed.

Lemma quiet_loadStylesheet (b : Build) (w : World) (url : string)
    (text : option string) (type : StyleType) (cache : gmap string CacheEntry) :
  quiet style_event (loadStylesheet b w url text type cache).
Proof. unfold loadStylesheet, loadStylesheet_miss. quiet. Qed.

(** With the text given, as for an inline stylesheet, no file is read. *)
Lemma quiet_loadStylesheet_inline (b : Build) (w : World) (url text : string)
    (type : StyleType) (cache : gmap string CacheEntry) :
  quiet inline_style_event (loadStylesheet b w url (Some text) type cache).
Proof. unfold loadStylesheet, loadStylesheet_miss. quiet. Qed.

Lemma bind_run {A B} (m : M A) (k : A -> M B) (s : PluginState) :
  bind m k s = match m s with
               | (Ok a, s') => k a s'
               | (Throw e, s') => (Throw e, s')
               end.
Proof. reflexivity. Qed.

(** The stylesheet handler: [loadStylesheet] on the shared cache, then
    the cache is put back. *)
Lemma onLoad_css_steps (b : Build) (w : World) (args : OnLoadArgs) (s : PluginState) :
  exists s1,
    wrote_nothing style_event s s1
    /\ ((exists e, onLoad_css b w args s = (Throw e, s1))
        \/ (exists out cache',
              onLoad_css b w args s
              = (Ok out, mkState (templateCache s1) cache' (fileKeyCache s1)
                           (hashes s1) (trace s1)))).
Proof.
  unfold onLoad_css.
  destruct (splitUrl (getAbsoluteUrl args)) as [file query].
  cbv beta. rewrite !bind_run.
  destruct (loadStylesheet b w (getAbsoluteUrl args) None
              (if String.eqb (path_extname path file) ".scss" then scss else css)
              (styleCache s) s) as [[[ce cache']|e] s1] eqn:Hload;
    exists s1; (split; [eapply quiet_run; [apply quiet_loadStylesheet | exact Hload]|]).
  - right. eexists _, cache'. reflexivity.
  - left. eexists. reflexivity.
Qed.

(** A request for the template itself: nothing is written, or a fresh
    entry is put under the path. *)
Lemma onLoad_html_main_steps (b : Build) (w : World) (args : OnLoadArgs)
    (s : PluginState) :
  truthy (args_suffix args) = false ->
  wrote_nothing template_event s (snd (onLoad_html b w args s))
  \/ exists s3 (fresh : TemplateCacheEntry) out,
       wrote_nothing template_event s s3
       /\ deps fresh = None
       /\ entry_styleCache fresh = ∅
       /\ onLoad_html b w args s
          = (Ok out, mkState (<[args_path args := fresh]> (templateCache s3))
                       (styleCache s3) (fileKeyCache s3) (hashes s3) (trace s3)).
Proof.
  intros Hsuffix. unfold onLoad_html. rewrite Hsuffix.
  cbv beta. rewrite !bind_run.
  destruct (getCacheKey w (args_path args) s) as [[key|e] s1] eqn:Hkey.
  2:{ left. simpl. eapply (wrote_nothing_mono stat_event);
        [apply stat_event_template|].
      eapply quiet_run; [apply quiet_getCacheKey | exact Hkey]. }
  assert (wrote_nothing template_event s s1) as Hs1.
  { eapply (wrote_nothing_mono stat_event); [apply stat_event_template|].
    eapply quiet_run; [apply quiet_getCacheKey | exact Hkey]. }
  cbv beta. rewrite !bind_run.
  assert (forall s2, wrote_nothing template_event s s2 ->
            wrote_nothing template_event s
              (snd ((let* compiled :=
                       (let* fresh :=
                          compileTemplate w (args_path args) key (build_options b) in
                        fun s' =>
                          (set_templateCache
                             (<[args_path args := fresh]> (templateCache s'));;;
                           ret fresh) s') in
                     ret (Some (mkOnLoad (code compiled) js (warnings compiled) None)))
                      s2))
            \/ exists s3 (fresh : TemplateCacheEntry) out,
                 wrote_nothing template_event s s3
                 /\ deps fresh = None
                 /\ entry_styleCache fresh = ∅
                 /\ (let* compiled :=
                       (let* fresh :=
                          compileTemplate w (args_path args) key (build_options b) in
                        fun s' =>
                          (set_templateCache
                             (<[args_path args := fresh]> (templateCache s'));;;
                           ret fresh) s') in
                     ret (Some (mkOnLoad (code compiled) js (warnings compiled) None)))
                      s2
                    = (Ok out, mkState (<[args_path args := fresh]> (templateCache s3))
                                 (styleCache s3) (fileKeyCache s3) (hashes s3)
                                 (trace s3))) as Hcompile.
  { intros s2 Hs2. rewrite !bind_run.
    destruct (compileTemplate w (args_path args) key (build_options b) s2)
      as [[fresh|e] s3] eqn:Hc.
    - right. exists s3, fresh. eexists.
      split; [eapply wrote_nothing_trans; [exact Hs2|];
              eapply quiet_run; [apply quiet_compileTemplate | exact Hc]|].
      apply compileTemplate_run in Hc as (_ & _ & _ & _ & Hd & He).
      split; [exact Hd|]. split; [exact He|]. reflexivity.
    - left. simpl. eapply wrote_nothing_trans; [exact Hs2|].
      eapply quiet_run; [apply quiet_compileTemplate | exact Hc]. }
  destruct (templateCache s !! args_path args) as [old|].
  - destruct (isValidEntry w old key s1) as [[[|]|e] s2] eqn:Hvalid.
    + left. simpl. eapply wrote_nothing_trans; [exact Hs1|].
      eapply (wrote_nothing_mono stat_event); [apply stat_event_template|].
      eapply quiet_run; [apply quiet_isValidEntry | exact Hvalid].
    + apply Hcompile. eapply wrote_nothing_trans; [exact Hs1|].
      eapply (wrote_nothing_mono stat_event); [apply stat_event_template|].
      eapply quiet_run; [apply quiet_isValidEntry | exact Hvalid].
    + left. simpl. eapply wrote_nothing_trans; [exact Hs1|].
      eapply (wrote_nothing_mono stat_event); [apply stat_event_template|].
      eapply quiet_run; [apply quiet_isValidEntry | exact Hvalid].
  - apply Hcompile. exact Hs1.
Qed.

(** A request for a sub-resource: nothing is written, or the entry of
    the path is put back with a new sub-cache. *)
Lemma onLoad_html_sub_steps (b : Build) (w : World) (args : OnLoadArgs)
    (s : PluginState) :
  truthy (args_suffix args) = true ->
  wrote_nothing sub_resource_event s (snd (onLoad_html b w args s))
  \/ exists s1 (compiled : TemplateCacheEntry) cache' out,
       wrote_nothing inline_style_event s s1
       /\ templateCache s !! args_path args = Some compiled
       /\ onLoad_html b w args s
          = (Ok out,
             mkState (<[args_path args :=
                          mkTemplateEntry (entry compiled) (scripts compiled)
                            (styles compiled) cache']> (templateCache s1))
               (styleCache s1) (fileKeyCache s1) (hashes s1) (trace s1)).
Proof.
  intros Hsuffix. unfold onLoad_html. rewrite Hsuffix.
  destruct (templateCache s !! args_path args) as [compiled|];
    [|left; apply wrote_nothing_refl].
  cbv zeta.
  destruct (option_eqb String.eqb _ (Some "componentStylesheet")).
  - destruct (at_index (styles compiled) _ ≫= res_content) as [text|];
      [|left; apply wrote_nothing_refl].
    destruct (has_content (Some text)); [|left; apply wrote_nothing_refl].
    rewrite !bind_run.
    destruct (loadStylesheet _ _ _ _ _ _ s) as [[[ce cache']|e] s1] eqn:Hload.
    + right. exists s1, compiled, cache'.
      pose proof (quiet_run _ _ _ _ _ (quiet_loadStylesheet_inline _ _ _ _ _ _) Hload)
        as Hs1.
      apply loadStylesheet_post in Hload as (_ & e & -> & _).
      eexists. split; [exact Hs1|]. split; [reflexivity|]. reflexivity.
    + left. simpl.
      eapply (wrote_nothing_mono inline_style_event); [apply inline_event_sub_resource|].
      eapply quiet_run; [apply quiet_loadStylesheet_inline | exact Hload].
  - destruct (option_eqb String.eqb _ (Some "componentScript"));
      [|left; apply wrote_nothing_refl].
    destruct (has_content _); [left; apply wrote_nothing_refl|].
    left. simpl. repeat split. eexists. split; reflexivity.
Qed.

(** X9. The two caches are apart: a request to the template handler
    never writes the shared stylesheet cache, and a request to the
    stylesheet handler never writes the template cache, whatever the
    request returns. *)
Theorem handlers_keep_caches_apart (b : Build) (w : World) (args : OnLoadArgs)
    (s : PluginState) :
  styleCache (snd (onLoad_html b w args s)) = styleCache s
  /\ templateCache (snd (onLoad_css b w args s)) = templateCache s.
Proof.
  split.
  - destruct (truthy (args_suffix args)) eqn:Hsuffix.
    + destruct (onLoad_html_sub_steps b w args s Hsuffix)
        as [(_ & H & _)|(s1 & compiled & cache' & out & (_ & H & _) & _ & ->)];
        exact H.
    + destruct (onLoad_html_main_steps b w args s Hsuffix)
        as [(_ & H & _)|(s3 & fresh & out & (_ & H & _) & _ & _ & ->)];
        exact H.
  - destruct (onLoad_css_steps b w args s)
      as (s1 & (H & _) & [(e & ->)|(out & cache' & ->)]); exact H.
Qed.

(** X10. A request that throws caches nothing: the template cache and
    the stylesheet cache are as they were before it. *)
Theorem failed_request_caches_nothing (b : Build) (w : World) (args : OnLoadArgs)
    (s s' : PluginState) (error : string) :
  onLoad_html b w args s = (Throw error, s')
  \/ onLoad_css b w args s = (Throw error, s') ->
  templateCache s' = templateCache s /\ styleCache s' = styleCache s.
Proof.
  intros [Hrun|Hrun].
  - destruct (truthy (args_suffix args)) eqn:Hsuffix.
    + destruct (onLoad_html_sub_steps b w args s Hsuffix)
        as [H|(s1 & compiled & cache' & out & _ & _ & Hok)].
      * rewrite Hrun in H. destruct H as (H1 & H2 & _). auto.
      * rewrite Hrun in Hok. discriminate.
    + destruct (onLoad_html_main_steps b w args s Hsuffix)
        as [H|(s3 & fresh & out & _ & _ & _ & Hok)].
      * rewrite Hrun in H. destruct H as (H1 & H2 & _). auto.
      * rewrite Hrun in Hok. discriminate.
  - destruct (onLoad_css_steps b w args s)
      as (s1 & (H1 & H2 & _) & [(e & Hthrow)|(out & cache' & Hok)]).
    + rewrite Hrun in Hthrow. injection Hthrow as _ <-. auto.
    + rewrite Hrun in Hok. discriminate.
Qed.

(** X11. Each request calls only its own tools.  A request for the
    template itself reads the file system, parses and generates: it never
    runs sass or the scoping transform and never warns.  A sub-resource
    request never reads a file and never runs the parser or the
    generator.  A stylesheet request never runs the parser or the
    generator and never warns. *)
Theorem handlers_call_their_own_tools (b : Build) (w : World) (args : OnLoadArgs)
    (s : PluginState) :
  (truthy (args_suffix args) = false ->
   exists evs, trace (snd (onLoad_html b w args s)) = (trace s ++ evs)%list
               /\ forallb template_event evs = true)
  /\ (truthy (args_suffix args) = true ->
      exists evs, trace (snd (onLoad_html b w args s)) = (trace s ++ evs)%list
                  /\ forallb sub_resource_event evs = true)
  /\ exists evs, trace (snd (onLoad_css b w args s)) = (trace s ++ evs)%list
                 /\ forallb style_event evs = true.
Proof.
  split; [|split].
  - intros Hsuffix.
    destruct (onLoad_html_main_steps b w args s Hsuffix)
      as [(_ & _ & _ & H)|(s3 & fresh & out & (_ & _ & _ & H) & _ & _ & ->)];
      exact H.
  - intros Hsuffix.
    destruct (onLoad_html_sub_steps b w args s Hsuffix)
      as [(_ & _ & _ & H)|(s1 & compiled & cache' & out & (_ & _ & _ & H) & _ & ->)];
      [exact H|].
    destruct H as (evs & Ht & Hevs). exists evs. split; [exact Ht|].
    apply forallb_forall. intros e He. apply inline_event_sub_resource.
    rewrite forallb_forall in Hevs. apply Hevs, He.
  - destruct (onLoad_css_steps b w args s)
      as (s1 & (_ & _ & _ & H) & [(e & ->)|(out & cache' & ->)]); exact H.
Qed.

End Frames.

(** ** What is served, and when a stylesheet is processed again *)

Section Served.
Context `{ext : Externals}.

(** X12. What a handler serves is the entry it leaves in the cache, and
    that entry is current.  When the stylesheet handler returns, it
    returns the code and the dependency paths of the entry now under the
    URL, whose key is the identity of the file and whose recorded
    dependencies have their current identities; it never returns without
    a result.  When a request for the template itself returns, it returns
    the code and the warnings of the entry now under the path, whose key
    is the identity of the template file. *)
Theorem served_entry_is_current (b : Build) (w : World) (args : OnLoadArgs)
    (s s' : PluginState) (out : option OnLoadResult) :
  (onLoad_css b w args s = (Ok out, s') ->
   exists e,
     styleCache s' !! getAbsoluteUrl args = Some e
     /\ out = Some (toCSSOnLoad e)
     /\ fst (getCacheKey w (css_request_file args) s) = Ok (cacheKey e)
     /\ forall d k, (d, k) ∈ recorded e -> fst (getCacheKey w d s) = Ok k)
  /\ (truthy (args_suffix args) = false ->
      onLoad_html b w args s = (Ok out, s') ->
      exists e : TemplateCacheEntry,
        templateCache s' !! args_path args = Some e
        /\ out = Some (mkOnLoad (code e) js (warnings e) None)
        /\ fst (getCacheKey w (args_path args) s) = Ok (cacheKey e)).
Proof.
  split.
  - unfold onLoad_css, css_request_file.
    destruct (splitUrl (getAbsoluteUrl args)) as [file query] eqn:Hsplit.
    cbv beta. rewrite bind_run.
    destruct (loadStylesheet _ _ _ _ _ _ s) as [[[ce cache']|e] s1] eqn:Hload;
      [|discriminate].
    apply loadStylesheet_post in Hload as (_ & e & -> & Hcache & Hkey & Hcur).
    unfold bind, set_styleCache, ret. simpl. intros [= <- <-]. simpl.
    exists e. split; [exact Hcache|]. split; [reflexivity|].
    rewrite Hsplit in Hkey. rewrite getCacheKey_fst. split; [exact Hkey|].
    intros d k Hin. rewrite getCacheKey_fst. auto.
  - intros Hsuffix Hrun.
    destruct (onLoad_html_main_run _ _ _ _ _ _ Hsuffix Hrun)
      as (key & s1 & Hkey
          & [(old & Hold & Hvalid & ->)|(s2 & s3 & fresh & _ & Hc & -> & ->)]).
    + destruct (getCacheKey_run w (args_path args) s) as (s1' & Hk' & Hs1).
      rewrite Hkey in Hk'. injection Hk' as Hid <-.
      destruct (isValidEntry_run w old key s1) as (r & s2 & Hv & Hs2 & Hiff & _).
      rewrite Hvalid in Hv. injection Hv as <- <-.
      destruct Hiff as [Hiff _]. destruct (Hiff eq_refl) as [Hk _].
      pose proof (only_stats_trans _ _ _ Hs1 Hs2) as ((Ht & _) & _).
      exists old. rewrite Ht, getCacheKey_fst, <- Hid, Hk. auto.
    + apply compileTemplate_run in Hc as (_ & _ & _ & Hk & _).
      exists fresh. simpl. rewrite lookup_insert_eq, Hkey, Hk. auto.
Qed.

Lemma processStylesheet_emits (text : string) (options : ProcessStylesheetOptions)
    (s s' : PluginState) (processed : ProcessedStylesheet) :
  processStylesheet text options s = (Ok processed, s') ->
  exists evs : list Event,
    trace s' = (trace s ++ evs)%list /\ EvScopeCSS (so_file options) ∈ evs.
Proof.
  unfold processStylesheet, bind, emit, lift, ret.
  destruct (so_type options); simpl.
  - destruct (sass_compileStringAsync _ _ _) as [compiled|err]; simpl; [|discriminate].
    destruct (scopeCSS _ _ _ _ _) as [[c|c m]|err]; simpl; [| |discriminate];
      try destruct (sass_sourceMap compiled); try destruct m;
      intros [= <- <-]; simpl; rewrite <- app_assoc; eexists; (split; [reflexivity|]);
      simpl; apply elem_of_cons; right; apply elem_of_cons; left; reflexivity.
  - destruct (scopeCSS _ _ _ _ _) as [[c|c m]|err]; simpl; [| |discriminate];
      try destruct m; intros [= <- <-]; simpl; eexists; (split; [reflexivity|]);
      apply elem_of_cons; left; reflexivity.
Qed.

(** When the miss branch of [loadStylesheet] returns for a stylesheet
    given by its file, the file was read and the scoping transform was
    run. *)
Lemma loadStylesheet_miss_emits (b : Build) (w : World) (url file : string)
    (query : list (string * string)) (type : StyleType)
    (cache cache' : gmap string CacheEntry) (key : CacheKey)
    (s s' : PluginState) (oe : option CacheEntry) :
  loadStylesheet_miss b w url file query None type cache key s = (Ok (oe, cache'), s') ->
  exists evs : list Event,
    trace s' = (trace s ++ evs)%list
    /\ EvReadFile file ∈ evs /\ EvScopeCSS file ∈ evs.
Proof.
  unfold loadStylesheet_miss. rewrite bind_run.
  unfold readFile at 1. unfold bind at 1, emit at 1. cbv beta iota.
  destruct (fs_readFile w file) as [text|]; [|discriminate].
  unfold ret at 1. rewrite bind_run.
  destruct (processStylesheet _ _ _) as [[processed|err] s2] eqn:Hp; [|discriminate].
  apply processStylesheet_emits in Hp as (evsP & HtP & HinP). simpl in HtP, HinP.
  rewrite bind_run.
  destruct (recordDeps w (processed_deps processed) [] s2) as [[deps'|err] s3] eqn:Hr;
    [|discriminate].
  pose proof (quiet_run _ _ _ _ _ (quiet_recordDeps _ _ _) Hr) as (_ & _ & _ & evsR & HtR & _).
  unfold ret. intros [= <- <- <-].
  exists ([EvReadFile file] ++ evsP ++ evsR)%list. split.
  - rewrite HtR, HtP. rewrite <- !app_assoc. reflexivity.
  - split.
    + apply elem_of_app. left. apply elem_of_cons. left. reflexivity.
    + apply elem_of_app. right. apply elem_of_app. left. exact HinP.
Qed.

(** X13. A stale stylesheet is processed again.  When the entry under
    the URL has a key other than the identity of the file, or records a
    dependency whose identity is no longer the recorded one, a request
    that returns has read the file and run the scoping transform, and
    what it returns is the new entry it stored. *)
Theorem stale_stylesheet_is_reprocessed (b : Build) (w : World) (args : OnLoadArgs)
    (s s' : PluginState) (out : option OnLoadResult) (old : CacheEntry) :
  styleCache s !! getAbsoluteUrl args = Some old ->
  (fst (getCacheKey w (css_request_file args) s) <> Ok (cacheKey old)
   \/ exists d k, (d, k) ∈ recorded old /\ fst (getCacheKey w d s) <> Ok k) ->
  onLoad_css b w args s = (Ok out, s') ->
  exists (evs : list Event) (e : CacheEntry),
    trace s' = (trace s ++ evs)%list
    /\ EvReadFile (css_request_file args) ∈ evs
    /\ EvScopeCSS (css_request_file args) ∈ evs
    /\ styleCache s' !! getAbsoluteUrl args = Some e
    /\ out = Some (toCSSOnLoad e).
Proof.
  intros Hold Hstale. unfold onLoad_css, css_request_file in *.
  destruct (splitUrl (getAbsoluteUrl args)) as [file query] eqn:Hsplit.
  simpl fst in Hstale. cbv beta. rewrite bind_run.
  destruct (loadStylesheet _ _ _ _ _ _ s) as [[[ce cache']|e] s1] eqn:Hload;
    [|discriminate].
  pose proof Hload as Hpost.
  apply loadStylesheet_post in Hpost as (_ & e & -> & Hcache & _).
  unfold bind, set_styleCache, ret. simpl. intros [= <- <-]. simpl.
  enough (exists evs : list Event,
             trace s1 = (trace s ++ evs)%list
             /\ EvReadFile file ∈ evs /\ EvScopeCSS file ∈ evs)
    as (evs & Ht & Hread & Hscope) by (exists evs, e; auto).
  unfold loadStylesheet in Hload. rewrite Hsplit, Hold in Hload.
  rewrite bind_run in Hload.
  destruct (getCacheKey_run w file s) as (s2 & Hk & Hs2). rewrite Hk in Hload.
  destruct (identity w (fileKeyCache s) file) as [key|err] eqn:Hid; [|discriminate].
  rewrite bind_run in Hload.
  destruct (isValidEntry_run w old key s2) as (r & s3 & Hv & Hs3 & Hiff & _).
  rewrite Hv in Hload.
  destruct r as [[|]|err]; [| |discriminate].
  - exfalso. destruct Hiff as [Hiff _]. destruct (Hiff eq_refl) as [Hkey Hdeps].
    rewrite (only_stats_memo _ _ Hs2) in Hdeps.
    destruct Hstale as [Hne|(d & k & Hin & Hne)].
    + apply Hne. rewrite getCacheKey_fst, Hid, Hkey. reflexivity.
    + apply Hne. rewrite getCacheKey_fst. apply Hdeps, Hin.
  - apply loadStylesheet_miss_emits in Hload as (evs & Ht & Hread & Hscope).
    destruct (only_stats_trans _ _ _ Hs2 Hs3) as (_ & evs0 & Ht0 & _).
    exists (evs0 ++ evs)%list. split; [rewrite Ht, Ht0, app_assoc; reflexivity|].
    split; apply elem_of_app; right; assumption.
Qed.

End Served.

(** ** The dependency map and the validity check *)

Section Deps.
Context `{ext : Externals}.

Lemma map_set_keys (k : string) (v : CacheKey) (m : list (string * CacheKey)) :
  map fst (map_set k v m)
  = if decide (k ∈ map fst m) then map fst m else (map fst m ++ [k])%list.
Proof.
  induction m as [|[k' v'] m IH]; simpl.
  - destruct (decide (k ∈ [])) as [Hin|_]; [|reflexivity].
    apply elem_of_nil in Hin. contradiction.
  - destruct (String.eqb_spec k' k) as [->|Hne]; simpl.
    + destruct (decide (k ∈ k :: map fst m)) as [_|Hnot]; [reflexivity|].
      exfalso. apply Hnot, elem_of_cons. auto.
    + rewrite IH.
      destruct (decide (k ∈ map fst m)) as [Hin|Hnot];
        destruct (decide (k ∈ k' :: map fst m)) as [Hin'|Hnot']; try reflexivity.
      * exfalso. apply Hnot', elem_of_cons. auto.
      * exfalso. apply elem_of_cons in Hin' as [->|Hin']; [congruence | contradiction].
Qed.

Lemma map_set_NoDup (k : string) (v : CacheKey) (m : list (string * CacheKey)) :
  NoDup (map fst m) -> NoDup (map fst (map_set k v m)).
Proof.
  intros Hm. rewrite map_set_keys.
  destruct (decide (k ∈ map fst m)) as [Hin|Hnot]; [exact Hm|].
  apply NoDup_app. split; [exact Hm|]. split.
  - intros x Hx [->|Hnil%elem_of_nil]%elem_of_cons; contradiction.
  - apply NoDup_singleton.
Qed.

Lemma map_set_key_elem (k : string) (v : CacheKey) (m : list (string * CacheKey))
    (d : string) :
  d ∈ map fst (map_set k v m) <-> d = k \/ d ∈ map fst m.
Proof.
  rewrite map_set_keys. destruct (decide (k ∈ map fst m)) as [Hin|Hnot].
  - split; [auto|]. intros [->|H]; assumption.
  - rewrite elem_of_app, list_elem_of_singleton. tauto.
Qed.

Lemma recordDeps_keys (w : World) (paths : list string) :
  forall (acc l : list (string * CacheKey)) (s s' : PluginState),
    recordDeps w paths acc s = (Ok l, s') ->
    NoDup (map fst acc) ->
    NoDup (map fst l)
    /\ (forall d, d ∈ map fst l <-> d ∈ map fst acc \/ d ∈ paths)
    /\ (forall d, d ∈ paths -> exists k, identity w (fileKeyCache s) d = Ok k).
Proof.
  induction paths as [|p paths IH]; intros acc l s s'; simpl.
  - unfold ret. intros [= <- <-] Hacc. split; [exact Hacc|]. split.
    + intros d. split; [auto|]. intros [H|H%elem_of_nil]; [exact H | contradiction].
    + intros d H%elem_of_nil. contradiction.
  - rewrite bind_run.
    destruct (getCacheKey_run w p s) as (s1 & -> & Hs1).
    destruct (identity w (fileKeyCache s) p) as [key|err] eqn:Hid; [|discriminate].
    intros Hrun Hacc.
    destruct (IH _ _ _ _ Hrun (map_set_NoDup p key acc Hacc)) as (Hnd & Hkeys & Hres).
    split; [exact Hnd|]. split.
    + intros d. rewrite Hkeys, map_set_key_elem, elem_of_cons. tauto.
    + intros d [->|Hin]%elem_of_cons; [eauto|].
      rewrite <- (only_stats_memo _ _ Hs1). apply Hres, Hin.
Qed.

Lemma recordDeps_throws (w : World) (paths : list string) :
  forall (acc : list (string * CacheKey)) (s : PluginState) (d : string),
    d ∈ paths ->
    (forall k, identity w (fileKeyCache s) d <> Ok k) ->
    exists e, fst (recordDeps w paths acc s) = Throw e.
Proof.
  induction paths as [|p paths IH]; intros acc s d Hin Hbad.
  - apply elem_of_nil in Hin. contradiction.
  - simpl. rewrite bind_run.
    destruct (getCacheKey_run w p s) as (s1 & -> & Hs1).
    destruct (identity w (fileKeyCache s) p) as [key|err] eqn:Hid.
    + apply elem_of_cons in Hin as [->|Hin]; [exfalso; eapply Hbad; eauto|].
      apply (IH _ _ d Hin). rewrite (only_stats_memo _ _ Hs1). exact Hbad.
    + eexists. reflexivity.
Qed.

(** X14. The dependency map that [loadStylesheet] builds has one entry
    for each distinct path the preprocessor reported and no other, each
    with the identity of its path; and when one reported path has no
    identity (it cannot be read by [fs.stat]), building the map throws. *)
Theorem recordDeps_one_entry_per_path (w : World) (paths : list string)
    (s : PluginState) :
  (forall l s',
      recordDeps w paths [] s = (Ok l, s') ->
      NoDup (map fst l)
      /\ (forall d, d ∈ map fst l <-> d ∈ paths)
      /\ (forall d k, (d, k) ∈ l -> fst (getCacheKey w d s) = Ok k))
  /\ (forall d, d ∈ paths ->
        (forall k, fst (getCacheKey w d s) <> Ok k) ->
        exists e, fst (recordDeps w paths [] s) = Throw e).
Proof.
  split.
  - intros l s' Hrun.
    destruct (recordDeps_keys w paths [] l s s' Hrun (NoDup_nil_2)) as (Hnd & Hkeys & _).
    split; [exact Hnd|]. split.
    + intros d. rewrite Hkeys. simpl. split; [|auto].
      intros [H%elem_of_nil|H]; [contradiction | exact H].
    + destruct (recordDeps_run w paths [] s) as (r & s1 & Hr & _ & Hcur).
      rewrite Hrun in Hr. injection Hr as <- <-.
      intros d k Hin. rewrite getCacheKey_fst. apply (Hcur l eq_refl); [|exact Hin].
      intros d' k' H%elem_of_nil. contradiction.
  - intros d Hin Hbad. apply (recordDeps_throws w paths [] s d Hin).
    intros k Hk. apply (Hbad k). rewrite getCacheKey_fst. exact Hk.
Qed.

Lemma getCacheKey_one_stat (w : World) (filePath : string) (s : PluginState) :
  exists evs : list Event,
    trace (snd (getCacheKey w filePath s)) = (trace s ++ evs)%list
    /\ length evs <= 1.
Proof.
  unfold getCacheKey. destruct (fileKeyCache s !! filePath).
  - exists []. simpl. split; [symmetry; apply app_nil_r | lia].
  - exists [EvStat filePath]. unfold bind, stat, emit, ret, throw. simpl.
    destruct (fs_stat w filePath); simpl; split; (reflexivity || lia).
Qed.

Lemma isValidEntry_deps_stat_count (w : World) (entries : list (string * CacheKey)) :
  forall s, exists evs : list Event,
    trace (snd (isValidEntry_deps w entries s)) = (trace s ++ evs)%list
    /\ length evs <= length entries.
Proof.
  induction entries as [|[d k] rest IH]; intros s; simpl.
  - exists []. split; [symmetry; apply app_nil_r | simpl; lia].
  - rewrite bind_run.
    destruct (getCacheKey_one_stat w d s) as (evs1 & Ht1 & Hl1).
    destruct (getCacheKey w d s) as [[current|err] s1]; simpl in Ht1.
    + destruct (negb (String.eqb k current)).
      * exists evs1. split; [exact Ht1 | lia].
      * destruct (IH s1) as (evs2 & Ht2 & Hl2).
        exists (evs1 ++ evs2)%list. split.
        -- rewrite Ht2, Ht1, app_assoc. reflexivity.
        -- rewrite length_app. lia.
    + exists evs1. split; [exact Ht1 | lia].
Qed.

(** X15. The validity check only reads.  It leaves the maps and the
    hash table as they were and calls nothing but [fs.stat], at most once
    for each recorded dependency; and when the key of the entry is not
    the current key it answers [false] without any call. *)
Theorem isValidEntry_only_reads (w : World) (e : CacheEntry) (currentKey : CacheKey)
    (s : PluginState) :
  only_stats s (snd (isValidEntry w e currentKey s))
  /\ (exists evs : list Event,
        trace (snd (isValidEntry w e currentKey s)) = (trace s ++ evs)%list
        /\ length evs <= length (recorded e))
  /\ (cacheKey e <> currentKey -> isValidEntry w e currentKey s = (Ok false, s)).
Proof.
  split; [|split].
  - destruct (isValidEntry_run w e currentKey s) as (r & s' & -> & Hs & _). exact Hs.
  - unfold isValidEntry, recorded.
    destruct (negb (String.eqb (cacheKey e) currentKey)).
    + exists []. split; [symmetry; apply app_nil_r | simpl; lia].
    + destruct (deps e) as [entries|]; simpl.
      * apply isValidEntry_deps_stat_count.
      * exists []. split; [symmetry; apply app_nil_r | simpl; lia].
  - intros Hne. unfold isValidEntry.
    destruct (String.eqb_spec (cacheKey e) currentKey); [contradiction | reflexivity].
Qed.

(** ** Templates are checked by their own file only *)

Lemma templates_plain_insert (s : PluginState) (p : string) (e : TemplateCacheEntry)
    (templates : gmap string TemplateCacheEntry) :
  (forall q (x : TemplateCacheEntry), templates !! q = Some x -> deps x = None) ->
  deps e = None ->
  forall q (x : TemplateCacheEntry), <[p := e]> templates !! q = Some x -> deps x = None.
Proof.
  intros Hall He q x. rewrite lookup_insert. case_decide.
  - intros [= <-]. exact He.
  - apply Hall.
Qed.

Lemma reachable_templates_plain (s : PluginState) : reachable s -> templates_plain s.
Proof.
  induction 1 as [|s _ IH|b w args s _ IH|b w args s _ IH].
  - intros p e H. unfold initialState in H. simpl in H.
    rewrite lookup_empty in H. discriminate.
  - exact IH.
  - unfold templates_plain in *.
    destruct (truthy (args_suffix args)) eqn:Hsuffix.
    + destruct (onLoad_html_sub_steps b w args s Hsuffix)
        as [(Ht & _)|(s1 & compiled & cache' & out & (Ht & _) & Hc & ->)].
      * rewrite Ht. exact IH.
      * simpl. rewrite Ht. apply (templates_plain_insert s); [exact IH|].
        simpl. apply (IH _ _ Hc).
    + destruct (onLoad_html_main_steps b w args s Hsuffix)
        as [(Ht & _)|(s3 & fresh & out & (Ht & _) & Hd & _ & ->)].
      * rewrite Ht. exact IH.
      * simpl. rewrite Ht. apply (templates_plain_insert s); [exact IH | exact Hd].
  - unfold templates_plain in *.
    destruct (onLoad_css_steps b w args s)
      as (s1 & (Ht & _) & [(e & ->)|(out & cache' & ->)]); simpl; rewrite Ht; exact IH.
Qed.

(** X16. A template is checked against its own file only.  In every
    state the plugin reaches, when the entry under the path has the key
    that [fs.stat] now gives for the template file, a request for the
    template serves that entry after this one [fs.stat] and nothing else,
    whatever became of every other file. *)
Theorem template_valid_by_own_file (b : Build) (w : World) (args : OnLoadArgs)
    (s : PluginState) (old : TemplateCacheEntry) (stats : Stats) :
  reachable s ->
  truthy (args_suffix args) = false ->
  templateCache s !! args_path args = Some old ->
  fs_stat w (args_path args) = Some stats ->
  cacheKey old = ino stats +:+ ":" +:+ mtimeMs stats ->
  onLoad_html b w args s
  = (Ok (Some (mkOnLoad (code old) js (warnings old) None)),
     mkState (templateCache s) (styleCache s) (fileKeyCache s) (hashes s)
       (trace s ++ [EvStat (args_path args)])).
Proof.
  intros Hs Hsuffix Hold Hstat Hkey.
  pose proof (reachable_templates_plain s Hs _ _ Hold) as Hplain.
  destruct (reachable_memos_ok s Hs) as [Hmemo _].
  assert (getCacheKey w (args_path args) s
          = (Ok (cacheKey old),
             mkState (templateCache s) (styleCache s) (fileKeyCache s) (hashes s)
               (trace s ++ [EvStat (args_path args)]))) as Hrun.
  { unfold getCacheKey.
    destruct (fileKeyCache s !! args_path args) eqn:Hm;
      [rewrite Hmemo, lookup_empty in Hm; discriminate|].
    unfold bind, stat, emit, ret. cbn. rewrite Hstat, Hkey. reflexivity. }
  assert (forall s1, isValidEntry w old (cacheKey old) s1 = (Ok true, s1)) as Hvalid.
  { intros s1. unfold isValidEntry. rewrite String.eqb_refl, Hplain. reflexivity. }
  unfold onLoad_html. rewrite Hsuffix, Hold. cbv beta.
  rewrite bind_run, Hrun. rewrite bind_run, Hvalid. reflexivity.
Qed.

End Deps.

(** ** The watch list of a stylesheet *)

Section WatchFiles.
Context `{ext : Externals}.

Lemma loadStylesheet_miss_records (b : Build) (w : World) (url file : string)
    (query : list (string * string)) (text : option string) (type : StyleType)
    (cache cache' : gmap string CacheEntry) (key : CacheKey)
    (s s' : PluginState) (oe : option CacheEntry) :
  loadStylesheet_miss b w url file query text type cache key s = (Ok (oe, cache'), s') ->
  exists e, cache' = <[url := e]> cache /\ records_each_once e.
Proof.
  unfold loadStylesheet_miss. rewrite bind_run.
  destruct (match text with
            | Some text0 => ret text0
            | None => readFile w file
            end s) as [[source''|err] s1]; [|discriminate].
  rewrite bind_run.
  destruct (processStylesheet _ _ s1) as [[processed|err] s2]; [|discriminate].
  rewrite bind_run.
  destruct (recordDeps w (processed_deps processed) [] s2) as [[deps'|err] s3] eqn:Hr;
    [|discriminate].
  unfold ret. intros [= <- <- <-].
  eexists. split; [reflexivity|]. exists deps'. split; [reflexivity|].
  apply (recordDeps_keys _ _ _ _ _ _ Hr). apply NoDup_nil_2.
Qed.

(** [loadStylesheet] keeps a cache whose entries record each dependency
    once. *)
Lemma loadStylesheet_records (b : Build) (w : World) (url : string)
    (text : option string) (type : StyleType) (cache cache' : gmap string CacheEntry)
    (s s' : PluginState) (oe : option CacheEntry) :
  loadStylesheet b w url text type cache s = (Ok (oe, cache'), s') ->
  (forall u e, cache !! u = Some e -> records_each_once e) ->
  forall u e, cache' !! u = Some e -> records_each_once e.
Proof.
  unfold loadStylesheet. destruct (splitUrl url) as [file query].
  rewrite bind_run.
  destruct (getCacheKey w file s) as [[key|err] s1]; [|discriminate].
  rewrite bind_run.
  destruct (match cache !! url with
            | Some e => isValidEntry w e key
            | None => ret false
            end s1) as [[[|]|err] s2]; [| |discriminate].
  - unfold ret. intros [= <- <- <-] Hall. exact Hall.
  - intros Hrun Hall u e.
    apply loadStylesheet_miss_records in Hrun as (e' & -> & He').
    rewrite lookup_insert. case_decide; [intros [= <-]; exact He' | apply Hall].
Qed.

Lemma reachable_styles_recorded (s : PluginState) : reachable s -> styles_recorded s.
Proof.
  induction 1 as [|s _ IH|b w args s _ IH|b w args s _ IH].
  - intros u e H. unfold initialState in H. simpl in H.
    rewrite lookup_empty in H. discriminate.
  - exact IH.
  - unfold styles_recorded in *.
    destruct (truthy (args_suffix args)) eqn:Hsuffix.
    + destruct (onLoad_html_sub_steps b w args s Hsuffix)
        as [(_ & Hsc & _)|(s1 & compiled & cache' & out & (_ & Hsc & _) & _ & ->)];
        simpl; rewrite Hsc; exact IH.
    + destruct (onLoad_html_main_steps b w args s Hsuffix)
        as [(_ & Hsc & _)|(s3 & fresh & out & (_ & Hsc & _) & _ & _ & ->)];
        simpl; rewrite Hsc; exact IH.
  - unfold styles_recorded in *. unfold onLoad_css.
    destruct (splitUrl (getAbsoluteUrl args)) as [file query].
    cbv beta. rewrite bind_run.
    destruct (loadStylesheet _ _ _ _ _ _ s) as [[[ce cache']|e] s1] eqn:Hload.
    + unfold bind, set_styleCache, ret. simpl.
      apply (loadStylesheet_records _ _ _ _ _ _ _ _ _ _ Hload IH).
    + simpl.
      pose proof (quiet_run _ _ _ _ _ (quiet_loadStylesheet _ _ _ _ _ _) Hload)
        as (_ & Hsc & _).
      rewrite Hsc. exact IH.
Qed.

(** X18. In every state the plugin reaches, a stylesheet request that
    returns gives a result with the loader for stylesheets and with a
    watch list, and no path stands twice in the watch list. *)
Theorem stylesheet_watch_list (b : Build) (w : World) (args : OnLoadArgs)
    (s s' : PluginState) (out : option OnLoadResult) :
  reachable s ->
  onLoad_css b w args s = (Ok out, s') ->
  exists result files,
    out = Some result
    /\ loader result = css_loader
    /\ watchFiles result = Some files
    /\ NoDup files.
Proof.
  intros Hs Hrun.
  assert (styles_recorded s') as Hrec.
  { replace s' with (snd (onLoad_css b w args s)) by (rewrite Hrun; reflexivity).
    apply reachable_styles_recorded, reachable_css, Hs. }
  revert Hrun. unfold onLoad_css.
  destruct (splitUrl (getAbsoluteUrl args)) as [file query].
  cbv beta. rewrite bind_run.
  destruct (loadStylesheet _ _ _ _ _ _ s) as [[[ce cache']|e] s1] eqn:Hload;
    [|discriminate].
  apply loadStylesheet_post in Hload as (_ & e & -> & Hcache & _).
  unfold bind, set_styleCache, ret. simpl. intros [= <- <-].
  destruct (Hrec (getAbsoluteUrl args) e Hcache) as (l & Hl & Hnd).
  exists (toCSSOnLoad e), (map fst l). split; [reflexivity|].
  split; [reflexivity|]. unfold toCSSOnLoad. rewrite Hl. simpl. auto.
Qed.

End WatchFiles.

(** ** Compiling a template, and the other sub-resource requests *)

Section Compile.
Context `{ext : Externals}.

(** X19. [compileTemplate] reads the file, parses and generates, once
    each and in this order.  When it returns an entry, the three calls
    were made and the entry holds the text of the file as its source.
    When the file cannot be read it throws after the read alone: the
    parser is not run.  When it throws, it has stopped after the read,
    after the parse or after the generation. *)
Theorem compileTemplate_events (w : World) (filePath : string) (key : CacheKey)
    (options : EndorphinPluginOptions) (s : PluginState) :
  (forall e s',
      compileTemplate w filePath key options s = (Ok e, s') ->
      trace s' = (trace s ++ [EvReadFile filePath; EvParse filePath;
                              EvGenerate filePath])%list
      /\ fs_readFile w filePath = Some (source e))
  /\ (fs_readFile w filePath = None ->
      exists error s',
        compileTemplate w filePath key options s = (Throw error, s')
        /\ trace s' = (trace s ++ [EvReadFile filePath])%list)
  /\ (forall error s',
        compileTemplate w filePath key options s = (Throw error, s') ->
        trace s' = (trace s ++ [EvReadFile filePath])%list
        \/ trace s' = (trace s ++ [EvReadFile filePath; EvParse filePath])%list
        \/ trace s' = (trace s ++ [EvReadFile filePath; EvParse filePath;
                                   EvGenerate filePath])%list).
Proof.
  unfold compileTemplate, readFile, makeCompileOptions, createScopeSuffix, hashM,
    bind, emit, lift, ret, throw.
  simpl.
  destruct (fs_readFile w filePath) as [text|].
  - destruct (safeBase64Hash _ _) as [h table]. simpl.
    destruct (parse _ _ _) as [[parsed warned1]|perr]; simpl.
    + destruct (generate _ _) as [[result warned2]|gerr]; simpl.
      * split; [|split].
        -- intros e s' [= <- <-]. simpl. rewrite <- !app_assoc. auto.
        -- discriminate.
        -- discriminate.
      * split; [discriminate|]. split; [discriminate|].
        intros error s' [= <- <-]. simpl. rewrite <- !app_assoc. auto.
    + split; [discriminate|]. split; [discriminate|].
      intros error s' [= <- <-]. simpl. rewrite <- !app_assoc. auto.
  - split; [discriminate|]. split.
    + intros _. eexists _, _. split; reflexivity.
    + intros error s' [= <- <-]. auto.
Qed.

(** X20. The other sub-resource requests on a compiled template.  A
    suffix whose [type] is neither [componentStylesheet] nor
    [componentScript] gives no result, no warning and no change of the
    state.  A [componentScript] request whose index holds no content (or
    that names no index) gives no result and warns once, with
    [No inline script]; the maps are left as they were. *)
Theorem subresource_edge_cases (b : Build) (w : World) (args : OnLoadArgs)
    (s : PluginState) (compiled : TemplateCacheEntry) :
  truthy (args_suffix args) = true ->
  templateCache s !! args_path args = Some compiled ->
  (request_type args <> Some "componentStylesheet" ->
   request_type args <> Some "componentScript" ->
   onLoad_html b w args s = (Ok None, s))
  /\ (request_type args = Some "componentScript" ->
      has_content (at_index (scripts compiled) (request_index args) ≫= res_content)
        = false ->
      onLoad_html b w args s
      = (Ok None,
         mkState (templateCache s) (styleCache s) (fileKeyCache s) (hashes s)
           (trace s ++ [EvWarn "No inline script"]))).
Proof.
  intros Hsuffix Hcompiled. unfold request_type, request_index.
  unfold onLoad_html. rewrite Hsuffix, Hcompiled. cbv zeta. split.
  - intros Hstyle Hscript.
    destruct (option_eqb String.eqb _ (Some "componentStylesheet")) eqn:E1.
    { apply option_eqb_string in E1. contradiction. }
    destruct (option_eqb String.eqb _ (Some "componentScript")) eqn:E2.
    { apply option_eqb_string in E2. contradiction. }
    reflexivity.
  - intros Htype Hcontent. rewrite Htype. simpl option_eqb.
    change (String.eqb "componentScript" "componentStylesheet") with false.
    change (String.eqb "componentScript" "componentScript") with true. cbv iota.
    rewrite Hcontent. reflexivity.
Qed.

End Compile.

(** * The statements on the concrete setting *)

#[global] Existing Instance Demo.externals.

Example getLines_crlf :
  getLines ("ab" +:+ String CR (String LF "cd")) = [mkLine 0 4; mkLine 4 6].
Proof. reflexivity. Qed.

(** The offset 1 lies in the only span of [abc], and no diagnostic is
    made for it. *)
Example createMessage_offset_in_span :
  getLines "abc" = [mkLine 0 3] /\ createMessage "unused variable" 1 "abc" "a.html" = None.
Proof. split; reflexivity. Qed.

(** The warning of the parser is lost: the entry of the template holds
    no diagnostic. *)
Example compiled_template_has_no_warning :
  warnings Demo.compiledEntry = Some [].
Proof. vm_compute. reflexivity. Qed.

(** Two calls for the template file in one pass read its metadata
    twice. *)
Example getCacheKey_twice_in_one_pass :
  trace (snd (getCacheKey Demo.world Demo.templatePath
                (snd (getCacheKey Demo.world Demo.templatePath
                        (snd (onStart initialState))))))
  = [EvStat Demo.templatePath; EvStat Demo.templatePath].
Proof. reflexivity. Qed.




Lemma missing_inline_stylesheet_is_silent_witness :
  onLoad_html Demo.build Demo.world Demo.missingStyleRequest Demo.compiledState
    = (Ok None, Demo.compiledState).
Proof.
  apply (missing_inline_stylesheet_is_silent Demo.build Demo.world
           Demo.missingStyleRequest Demo.compiledState Demo.compiledEntry).
  - reflexivity.
  - vm_compute. reflexivity.
  - vm_compute. reflexivity.
  - vm_compute. reflexivity.
Defined.



Lemma subresource_needs_compiled_template_witness :
  (exists message,
      onLoad_html Demo.build Demo.world Demo.scriptRequest initialState
        = (Throw message, initialState))
  /\ exists out,
       onLoad_html Demo.build Demo.world Demo.scriptRequest Demo.compiledState
         = (Ok (Some out), Demo.compiledState)
       /\ contents out = "export const a: number = 1;"
       /\ loader out = ts.
Proof.
  split.
  - apply (proj1 (subresource_needs_compiled_template Demo.build Demo.world
                    Demo.scriptRequest initialState eq_refl)).
    reflexivity.
  - destruct (proj2 (subresource_needs_compiled_template Demo.build Demo.world
                       Demo.scriptRequest Demo.compiledState eq_refl)
                Demo.compiledEntry
                (mkResource (Some Demo.templatePath)
                   (Some "export const a: number = 1;") (Some "ts"))
                "export const a: number = 1;")
      as (out & Hrun & Hcontents & Hts & _).
    + vm_compute. reflexivity.
    + vm_compute. reflexivity.
    + vm_compute. reflexivity.
    + reflexivity.
    + reflexivity.
    + exists out. split; [exact Hrun|]. split; [exact Hcontents|].
      apply Hts. left. reflexivity.
Defined.

Lemma recompile_resets_subcache_witness :
  entry_styleCache Demo.styledEntry !! getAbsoluteUrl Demo.styleRequest
    = Some Demo.styleEntry
  /\ exists fresh : TemplateCacheEntry,
       templateCache Demo.recompiledState !! Demo.templatePath = Some fresh
       /\ cacheKey fresh = "11:1700000007777"
       /\ entry_styleCache fresh = ∅.
Proof.
  split; [vm_compute; reflexivity|].
  destruct (recompile_resets_subcache Demo.build Demo.world_edited Demo.mainRequest
              Demo.styledState Demo.recompiledState Demo.recompiledOutput)
    as (_ & _ & Hfresh).
  - reflexivity.
  - vm_compute. reflexivity.
  - apply (Hfresh Demo.styledEntry "11:1700000007777").
    + vm_compute. reflexivity.
    + vm_compute. reflexivity.
    + vm_compute. discriminate.
Defined.

(** ** The further statements on the concrete setting *)

Lemma getLines_without_break_witness : getLines "abc" = [mkLine 0 3].
Proof.
  apply (getLines_without_break "abc").
  - discriminate.
  - intros p Hp. simpl in Hp.
    destruct p as [|[|[|p]]]; [reflexivity | reflexivity | reflexivity | lia].
Defined.

Lemma splitUrl_getAbsoluteUrl_witness :
  splitUrl (getAbsoluteUrl Demo.styleRequest)
  = (Demo.templatePath, URLSearchParams (args_suffix Demo.styleRequest)).
Proof.
  apply (proj1 (proj2 (splitUrl_getAbsoluteUrl Demo.styleRequest eq_refl))
           "type=componentStylesheet&scope=eX&i=0");
    reflexivity.
Defined.

Lemma getCacheKey_separates_witness :
  fst (getCacheKey Demo.world Demo.templatePath initialState)
  = fst (getCacheKey Demo.world_edited Demo.templatePath initialState)
  <-> mkStats "11" "1700000000000" = mkStats "11" "1700000007777".
Proof.
  apply (getCacheKey_separates Demo.world Demo.world_edited Demo.templatePath
           Demo.templatePath initialState); reflexivity.
Defined.

Lemma failed_request_caches_nothing_witness :
  templateCache Demo2.failedState = templateCache Demo2.loadedState
  /\ styleCache Demo2.failedState = styleCache Demo2.loadedState.
Proof.
  apply (failed_request_caches_nothing Demo.build Demo2.world Demo2.missingRequest
           Demo2.loadedState Demo2.failedState
           "ENOENT: no such file or directory, stat /proj/src/missing.css").
  right. vm_compute. reflexivity.
Defined.

Lemma stale_stylesheet_is_reprocessed_witness :
  exists (evs : list Event) (e : CacheEntry),
    trace Demo2.reloadedState = (trace Demo2.loadedState ++ evs)%list
    /\ EvReadFile (css_request_file Demo2.sheetRequest) ∈ evs
    /\ EvScopeCSS (css_request_file Demo2.sheetRequest) ∈ evs
    /\ styleCache Demo2.reloadedState !! getAbsoluteUrl Demo2.sheetRequest = Some e
    /\ Demo2.reloadedOutput = Some (toCSSOnLoad e).
Proof.
  apply (stale_stylesheet_is_reprocessed Demo.build Demo2.world_touched
           Demo2.sheetRequest Demo2.loadedState Demo2.reloadedState
           Demo2.reloadedOutput Demo2.sheetEntry).
  - vm_compute. reflexivity.
  - right. exists Demo.partialPath, "12:1700000000500". split.
    + assert (recorded Demo2.sheetEntry = [(Demo.partialPath, "12:1700000000500")])
        as -> by (vm_compute; reflexivity).
      apply elem_of_cons. left. reflexivity.
    + vm_compute. discriminate.
  - vm_compute. reflexivity.
Defined.

Lemma template_valid_by_own_file_witness :
  onLoad_html Demo.build Demo.world_touched Demo.mainRequest Demo.compiledState
  = (Ok (Some (mkOnLoad (code Demo.compiledEntry) js (warnings Demo.compiledEntry) None)),
     mkState (templateCache Demo.compiledState) (styleCache Demo.compiledState)
       (fileKeyCache Demo.compiledState) (hashes Demo.compiledState)
       (trace Demo.compiledState ++ [EvStat (args_path Demo.mainRequest)])).
Proof.
  apply (template_valid_by_own_file Demo.build Demo.world_touched Demo.mainRequest
           Demo.compiledState Demo.compiledEntry (mkStats "11" "1700000000000")).
  - apply (reachable_html Demo.build Demo.world Demo.mainRequest initialState).
    apply reachable_initial.
  - reflexivity.
  - vm_compute. reflexivity.
  - reflexivity.
  - vm_compute. reflexivity.
Defined.

Lemma reload_in_next_pass_witness :
  exists s2,
    (onStart;;; onLoad_html Demo.build Demo.world_later Demo.mainRequest)
      Demo.compiledState = (Ok (Some Demo2.mainResult), s2)
    /\ only_stats Demo.compiledState s2.
Proof.
  apply (proj1 (reload_in_next_pass Demo.build Demo.world Demo.world_later
                  Demo.mainRequest initialState Demo.compiledState Demo2.mainResult
                  reachable_initial)).
  - vm_compute. reflexivity.
  - split; [reflexivity|]. intros e d k _ _. reflexivity.
Defined.

Lemma stylesheet_watch_list_witness :
  exists result files,
    Demo2.reloadedOutput = Some result
    /\ loader result = css_loader
    /\ watchFiles result = Some files
    /\ NoDup files.
Proof.
  apply (stylesheet_watch_list Demo.build Demo2.world_touched Demo2.sheetRequest
           Demo2.loadedState Demo2.reloadedState Demo2.reloadedOutput).
  - apply (reachable_css Demo.build Demo2.world Demo2.sheetRequest initialState).
    apply reachable_initial.
  - vm_compute. reflexivity.
Defined.

Lemma subresource_edge_cases_witness :
  onLoad_html Demo.build Demo.world (mkArgs Demo.templatePath "?type=componentScript&i=5")
    Demo.compiledState
  = (Ok None,
     mkState (templateCache Demo.compiledState) (styleCache Demo.compiledState)
       (fileKeyCache Demo.compiledState) (hashes Demo.compiledState)
       (trace Demo.compiledState ++ [EvWarn "No inline script"])).
Proof.
  apply (proj2 (subresource_edge_cases Demo.build Demo.world
                  (mkArgs Demo.templatePath "?type=componentScript&i=5")
                  Demo.compiledState Demo.compiledEntry eq_refl
                  ltac:(vm_compute; reflexivity))).
  - reflexivity.
  - vm_compute. reflexivity.
Defined.
